(** * resolveHref: resolving a hyperlink against the router state

    A shallow embedding of
    [packages/next/src/shared/lib/router/utils/resolve-href.ts].

    JavaScript strings are modelled as [string] (sequences of code units),
    the three result shapes [string | [string] | [string, string]] as an
    inductive type, exceptions and [console.error] by a small effect monad
    (a log of diagnostics together with a normal or an abrupt completion).

    The helpers that [resolve-href.ts] imports and the browser's [URL] class
    are not part of the file.  They are collected in the record [Env]; every
    statement below is proved for an arbitrary [Env], and the module
    [TestPlatform] gives one concrete environment on which the model runs
    and [OpaquePlatform] extends it with the URLs that have an opaque path.

    The module [NextLint] embeds the pure parts of the [next lint] command
    that follows in the excerpt: [eslintOptions], the choice of the paths to
    lint and the handling of the lint results. *)

From Stdlib Require Import String Ascii List Bool Arith Lia.
Import ListNotations.
Local Open Scope list_scope.
Local Open Scope string_scope.

Set Implicit Arguments.

(* ================================================================== *)
(** ** JavaScript values and string primitives *)

(** [a || b] on strings: the empty string is the only falsy string. *)
Definition js_or (a b : string) : string :=
  if String.eqb a "" then b else a.

(** Truthiness of a string, as tested by [if (result)]. *)
Definition truthy (s : string) : bool := negb (String.eqb s "").

(** Truthiness of an object reference: every object is truthy. *)
Definition truthy_object {A : Type} (_ : A) : bool := true.

(** [s.slice(n)] for [0 <= n]. *)
Fixpoint slice (n : nat) (s : string) : string :=
  match n, s with
  | O, _ => s
  | S _, EmptyString => EmptyString
  | S n', String _ s' => slice n' s'
  end.

(** [s.startsWith(p)]. *)
Definition startsWith (s p : string) : bool := prefix p s.

(** [s.split('?')]: always at least one part. *)
Fixpoint split (sep : ascii) (s : string) : list string :=
  match s with
  | EmptyString => [EmptyString]
  | String c s' =>
      if Ascii.eqb c sep then EmptyString :: split sep s'
      else match split sep s' with
           | part :: parts => String c part :: parts
           | [] => [String c EmptyString]
           end
  end.

(** The character class [[a-zA-Z]]. *)
Definition is_alpha (c : ascii) : bool :=
  let n := nat_of_ascii c in
  (((65 <=? n) && (n <=? 90)) || ((97 <=? n) && (n <=? 122)))%nat.

(** The longest prefix of letters and what follows it. *)
Fixpoint span_alpha (s : string) : string * string :=
  match s with
  | EmptyString => (EmptyString, EmptyString)
  | String c s' =>
      if is_alpha c
      then let (letters, rest) := span_alpha s' in (String c letters, rest)
      else (EmptyString, s)
  end.

(** [urlAsString.match(/^[a-zA-Z]{1,}:\/\//)]: the matched text, if any.
    The letters are matched greedily and [:] is not a letter, so the match
    is the longest run of letters when it is not empty and is followed by
    [://]. *)
Definition urlProtoMatch (urlAsString : string) : option string :=
  let (letters, rest) := span_alpha urlAsString in
  if negb (String.eqb letters "") && prefix "://" rest
  then Some (letters ++ "://")
  else None.

(** [urlProtoMatch ? urlAsString.slice(urlProtoMatch[0].length) : urlAsString] *)
Definition urlAsStringNoProto (urlAsString : string) : string :=
  match urlProtoMatch urlAsString with
  | Some m => slice (String.length m) urlAsString
  | None => urlAsString
  end.

(** [urlAsStringNoProto.split('?')] *)
Definition urlParts (urlAsString : string) : list string :=
  split "?" (urlAsStringNoProto urlAsString).

(** [part.match(/(\/\/|\\)/)] as a test: two consecutive forward slashes
    or one backslash somewhere in [part]. *)
Fixpoint hasRepeatedSlashes (part : string) : bool :=
  match part with
  | EmptyString => false
  | String c rest =>
      if Ascii.eqb c "\" then true
      else if Ascii.eqb c "/"
           then match rest with
                | String d _ => if Ascii.eqb d "/" then true
                                else hasRepeatedSlashes rest
                | EmptyString => false
                end
           else hasRepeatedSlashes rest
  end.

(** The condition of the [if] on line 44:
    [(urlParts[0] || '').match(/(\/\/|\\)/)]. *)
Definition needsRepair (urlAsString : string) : bool :=
  hasRepeatedSlashes (js_or (nth 0 (urlParts urlAsString) "") "").

(** The text given to [console.error]. *)
Definition invalidHrefMessage (urlAsString : string) : string :=
  "Invalid href passed to next/router: " ++ urlAsString ++
  ", repeated forward-slashes (//) or backslashes \ are not valid in the href".

(* ================================================================== *)
(** ** Data model *)

(** A value of a parsed query: [string | string[]]. *)
Inductive QueryValue : Type :=
| QString (s : string)
| QArray (l : list string).

(** [ParsedUrlQuery]: an object used as a map from keys to values, in
    insertion order. *)
Definition ParsedUrlQuery : Type := list (string * QueryValue).

(** Modelled from the spec: the declaration of [UrlObject] is not under
    src/; the spec gives a structured target as [{pathname, query, hash}],
    each of which may be absent. *)
Record UrlObject : Type := mkUrlObject {
  uo_pathname : option string;
  uo_hash : option string;
  uo_query : option ParsedUrlQuery
}.

(** [type Url = string | UrlObject] *)
Inductive Url : Type :=
| UrlString (s : string)
| UrlObj (o : UrlObject).

(** The part of [NextRouter] that [resolveHref] reads. *)
Record NextRouter : Type := mkRouter {
  pathname : string;
  asPath : string
}.

(** The result: [string], [[string]] or [[string, string]]. *)
Inductive Resolved : Type :=
| Single (href : string)
| One (href : string)
| Pair (href : string) (as_ : string).

(** Element 0 of a result; for the bare string, the string itself. *)
Definition firstOf (r : Resolved) : string :=
  match r with
  | Single h => h
  | One h => h
  | Pair h _ => h
  end.

(** Modelled from the spec: [omit] (./omit) is not under src/; the spec
    says that the consumed parameters are excluded and that all other
    query parameters remain. *)
Definition omit (query : ParsedUrlQuery) (keys : list string) : ParsedUrlQuery :=
  filter (fun kv => negb (existsb (String.eqb (fst kv)) keys)) query.

(** Property access [query[key]]. *)
Fixpoint lookup (key : string) (query : ParsedUrlQuery) : option QueryValue :=
  match query with
  | [] => None
  | (k, v) :: rest => if String.eqb k key then Some v else lookup key rest
  end.

(* ================================================================== *)
(** ** Effects: diagnostics and exceptions *)

Inductive Outcome (A : Type) : Type :=
| Returned (a : A)
| Thrown.
Arguments Returned {A} a.
Arguments Thrown {A}.

(** A computation: the [console.error] messages it emitted, in order, and
    how it completed. *)
Definition Eff (A : Type) : Type := (list string * Outcome A)%type.

Definition ret {A} (a : A) : Eff A := ([], Returned a).

Definition throw {A} : Eff A := ([], Thrown).

Definition bind {A B} (m : Eff A) (f : A -> Eff B) : Eff B :=
  match m with
  | (log, Returned a) => let (log', r) := f a in ((log ++ log')%list, r)
  | (log, Thrown) => (log, Thrown)
  end.

(** [try { body } catch (_) { handler }] *)
Definition try_catch {A} (body handler : Eff A) : Eff A :=
  match body with
  | (log, Thrown) => let (log', r) := handler in ((log ++ log')%list, r)
  | (log, Returned a) => (log, Returned a)
  end.

Definition console_error (message : string) : Eff unit :=
  ([message], Returned tt).

(** A constructor call that throws when the platform rejects its input. *)
Definition construct {A} (o : option A) : Eff A :=
  match o with
  | Some a => ret a
  | None => throw
  end.

Definition diagnostics {A} (m : Eff A) : list string := fst m.
Definition outcome {A} (m : Eff A) : Outcome A := snd m.

Declare Scope eff_scope.
Delimit Scope eff_scope with eff.
Notation "x <- m ;; k" := (bind m (fun x => k))
  (at level 61, m at next level, right associativity) : eff_scope.
Notation "m ;;; k" := (bind m (fun _ => k))
  (at level 61, right associativity) : eff_scope.

(* ================================================================== *)
(** ** The environment of [resolveHref] *)

(** The second argument of [new URL(url, base)]: a string or a [URL]. *)
Inductive UrlBase (U : Type) : Type :=
| BaseString (s : string)
| BaseURL (u : U).
Arguments BaseString {U} s.
Arguments BaseURL {U} u.

(** The browser's [URL] class and the helpers imported by
    [resolve-href.ts].  [new_URL] is [None] where the constructor throws;
    the helpers have the types of their TypeScript signatures. *)
Record Env : Type := mkEnv {
  URL : Type;
  URLSearchParams : Type;
  new_URL : string -> UrlBase URL -> option URL;
  URL_href : URL -> string;
  URL_origin : URL -> string;
  URL_pathname : URL -> string;
  URL_hash : URL -> string;
  URL_searchParams : URL -> URLSearchParams;
  URL_set_pathname : URL -> string -> URL;
  formatWithValidation : UrlObject -> string;
  normalizeRepeatedSlashes : string -> string;
  normalizePathTrailingSlash : string -> string;
  isLocalURL : string -> bool;
  isDynamicRoute : string -> bool;
  searchParamsToUrlQuery : URLSearchParams -> ParsedUrlQuery;
  interpolateAs : string -> string -> ParsedUrlQuery -> string * list string
}.

(* ================================================================== *)
(** ** resolveHref *)

Section ResolveHref.

Variable E : Env.

Local Open Scope eff_scope.

(** Line 33: a structured target is serialized first. *)
Definition hrefToString (href : Url) : string :=
  match href with
  | UrlString s => s
  | UrlObj o => formatWithValidation E o
  end.

(** Lines 48-49: the value assigned to [urlAsString] by the repair. *)
Definition repaired (urlAsString : string) : string :=
  match urlProtoMatch urlAsString with
  | Some m => m
  | None => ""
  end ++ normalizeRepeatedSlashes E (urlAsStringNoProto urlAsString).

(** Lines 37-50: [urlAsString] after the check for repeated slashes. *)
Definition repairHref (urlAsString : string) : Eff string :=
  if needsRepair urlAsString
  then console_error (invalidHrefMessage urlAsString) ;;;
       ret (repaired urlAsString)
  else ret urlAsString.

(** Lines 57-65: the base of the resolution. *)
Definition constructBase (router : NextRouter) (urlAsString : string)
  : Eff (URL E) :=
  try_catch
    (construct
       (new_URL E
          (if startsWith urlAsString "#" then asPath router
           else pathname router)
          (BaseString "http://n")))
    (construct (new_URL E "/" (BaseString "http://n"))).

(** Lines 70-92: [interpolatedAs] once the [if] has run. *)
Definition interpolatedAsOf (finalUrl : URL E) (resolveAs : bool) : string :=
  if isDynamicRoute E (URL_pathname E finalUrl)
     && truthy_object (URL_searchParams E finalUrl)
     && resolveAs
  then
    let query := searchParamsToUrlQuery E (URL_searchParams E finalUrl) in
    let (result, params) :=
      interpolateAs E (URL_pathname E finalUrl) (URL_pathname E finalUrl) query
    in
    if truthy result
    then formatWithValidation E
           {| uo_pathname := Some result;
              uo_hash := Some (URL_hash E finalUrl);
              uo_query := Some (omit query params) |}
    else ""
  else "".

(** Lines 95-98: the origin is cut off when it is the base's. *)
Definition resolvedHrefOf (finalUrl base : URL E) : string :=
  if String.eqb (URL_origin E finalUrl) (URL_origin E base)
  then slice (String.length (URL_origin E finalUrl)) (URL_href E finalUrl)
  else URL_href E finalUrl.

(** Lines 68-69: the target resolved against the base, with the trailing
    slash of its path normalized. *)
Definition constructFinalUrl (urlAsString : string) (base : URL E)
  : Eff (URL E) :=
  finalUrl <- construct (new_URL E urlAsString (BaseURL base)) ;;
  ret (URL_set_pathname E finalUrl
         (normalizePathTrailingSlash E (URL_pathname E finalUrl))).

(** Lines 104 and 54: what is returned when the target is not resolved. *)
Definition unresolved (urlAsString : string) (resolveAs : bool) : Resolved :=
  if resolveAs then One urlAsString else Single urlAsString.

(** Lines 67-105: the target resolved against [base]. *)
Definition resolveAgainst (urlAsString : string) (base : URL E)
  (resolveAs : bool) : Eff Resolved :=
  try_catch
    (finalUrl <- constructFinalUrl urlAsString base ;;
     let interpolatedAs := interpolatedAsOf finalUrl resolveAs in
     let resolvedHref := resolvedHrefOf finalUrl base in
     ret (if resolveAs
          then Pair resolvedHref (js_or interpolatedAs resolvedHref)
          else Single resolvedHref))
    (ret (unresolved urlAsString resolveAs)).

Definition resolveHref (router : NextRouter) (href : Url) (resolveAs : bool)
  : Eff Resolved :=
  urlAsString <- repairHref (hrefToString href) ;;
  if negb (isLocalURL E urlAsString)
  then ret (unresolved urlAsString resolveAs)
  else
    base <- constructBase router urlAsString ;;
    resolveAgainst urlAsString base resolveAs.

(** [urlAsString] as it stands on line 52. *)
Definition urlAsStringOf (href : Url) : string :=
  let s := hrefToString href in
  if needsRepair s then repaired s else s.

(** The argument of the first [new URL]: [router.asPath] for a target that
    starts with [#], [router.pathname] otherwise (line 59). *)
Definition basePath (router : NextRouter) (urlAsString : string) : string :=
  if startsWith urlAsString "#" then asPath router else pathname router.

End ResolveHref.

(** The environment [E] with another [URL] constructor. *)
Definition with_new_URL (E : Env)
  (ctor : string -> UrlBase (URL E) -> option (URL E)) : Env :=
  {| URL := URL E;
     URLSearchParams := URLSearchParams E;
     new_URL := ctor;
     URL_href := URL_href E;
     URL_origin := URL_origin E;
     URL_pathname := URL_pathname E;
     URL_hash := URL_hash E;
     URL_searchParams := URL_searchParams E;
     URL_set_pathname := URL_set_pathname E;
     formatWithValidation := formatWithValidation E;
     normalizeRepeatedSlashes := normalizeRepeatedSlashes E;
     normalizePathTrailingSlash := normalizePathTrailingSlash E;
     isLocalURL := isLocalURL E;
     isDynamicRoute := isDynamicRoute E;
     searchParamsToUrlQuery := searchParamsToUrlQuery E;
     interpolateAs := interpolateAs E |}.

(** [f] applied to the value of a normal completion. *)
Definition outcome_map {A B} (f : A -> B) (o : Outcome A) : Outcome B :=
  match o with
  | Returned a => Returned (f a)
  | Thrown => Thrown
  end.

(** [c] occurs in [s]. *)
Fixpoint occurs (c : ascii) (s : string) : bool :=
  match s with
  | EmptyString => false
  | String d s' => Ascii.eqb d c || occurs c s'
  end.

(* ================================================================== *)
(** ** A concrete environment *)

(** An environment on which the model runs, used to evaluate [resolveHref]
    at concrete targets.  Its [URL] follows the URL standard on the
    references that occur below: references that are scheme-relative
    ([//host/...]), path-absolute, query-only, fragment-only or empty,
    resolved against an [http] base, with ASCII tab and newline removed
    before parsing and a host made of letters, digits, [.] and [-].
    Paths are kept verbatim (no escaping, no dot segments) and any other
    reference is outside the fixture.  The helpers follow the contracts
    the spec gives for them, with the trailing slash always removed and
    every absolute URL foreign to the page. *)
Module TestPlatform.

Definition TAB : string := String "009"%char EmptyString.

(** The text before the first character satisfying [p], and the rest. *)
Fixpoint break (p : ascii -> bool) (s : string) : string * string :=
  match s with
  | EmptyString => (EmptyString, EmptyString)
  | String c s' =>
      if p c then (EmptyString, s)
      else let (a, b) := break p s' in (String c a, b)
  end.

Fixpoint string_forallb (p : ascii -> bool) (s : string) : bool :=
  match s with
  | EmptyString => true
  | String c s' => p c && string_forallb p s'
  end.

Fixpoint string_filter (p : ascii -> bool) (s : string) : string :=
  match s with
  | EmptyString => EmptyString
  | String c s' =>
      if p c then String c (string_filter p s') else string_filter p s'
  end.

Fixpoint join (sep : string) (l : list string) : string :=
  match l with
  | [] => ""
  | [x] => x
  | x :: rest => x ++ sep ++ join sep rest
  end.

Definition is_digit (c : ascii) : bool :=
  let n := nat_of_ascii c in ((48 <=? n) && (n <=? 57))%nat.

Definition endsWith (s p : string) : bool :=
  let n := String.length s in
  let k := String.length p in
  (k <=? n)%nat && String.eqb (slice (n - k) s) p.

(** *** The URL class *)

Record Location : Type := mkLocation {
  loc_origin : string;
  loc_path : string;
  loc_search : string;
  loc_hash : string
}.

(** The path of an [http] URL is never empty. *)
Definition loc_pathname (u : Location) : string := js_or (loc_path u) "/".

Definition loc_href (u : Location) : string :=
  loc_origin u ++ loc_pathname u ++ loc_search u ++ loc_hash u.

Definition loc_set_pathname (u : Location) (p : string) : Location :=
  {| loc_origin := loc_origin u;
     loc_path := if startsWith p "/" then p else "/" ++ p;
     loc_search := loc_search u;
     loc_hash := loc_hash u |}.

Definition is_tab_or_newline (c : ascii) : bool :=
  let n := nat_of_ascii c in
  ((n =? 9) || (n =? 10) || (n =? 13))%nat.

Definition valid_host (host : string) : bool :=
  negb (String.eqb host "")
  && string_forallb
       (fun c => is_alpha c || is_digit c || Ascii.eqb c "." || Ascii.eqb c "-")
       host.

(** Path, query (with its [?]) and fragment (with its [#]) of a reference. *)
Definition parse_reference (r : string) : string * string * string :=
  let (beforeHash, hash) := break (Ascii.eqb "#") r in
  let (path, search) := break (Ascii.eqb "?") beforeHash in
  (path, search, hash).

Definition parse_base (base : UrlBase Location) : option Location :=
  match base with
  | BaseURL u => Some u
  | BaseString s =>
      if prefix "http://" s && valid_host (slice 7 s)
      then Some (mkLocation s "/" "" "")
      else None
  end.

Definition new_Location (input : string) (base : UrlBase Location)
  : option Location :=
  match parse_base base with
  | None => None
  | Some b =>
      let r := string_filter (fun c => negb (is_tab_or_newline c)) input in
      if prefix "//" r then
        let (host, tail) :=
          break (fun c => Ascii.eqb c "/" || Ascii.eqb c "?" || Ascii.eqb c "#")
                (slice 2 r) in
        if valid_host host
        then let '(path, search, hash) := parse_reference tail in
             Some (mkLocation ("http://" ++ host) path search hash)
        else None
      else if prefix "/" r then
        let '(path, search, hash) := parse_reference r in
        Some (mkLocation (loc_origin b) path search hash)
      else if prefix "?" r then
        let '(_, search, hash) := parse_reference r in
        Some (mkLocation (loc_origin b) (loc_path b) search hash)
      else if prefix "#" r then
        Some (mkLocation (loc_origin b) (loc_path b) (loc_search b) r)
      else if String.eqb r "" then
        Some (mkLocation (loc_origin b) (loc_path b) (loc_search b) "")
      else None
  end.

(** [url.searchParams]: the pairs of the query, in order. *)
Definition loc_searchParams (u : Location) : list (string * string) :=
  match loc_search u with
  | EmptyString => []
  | String _ q =>
      map (fun kv => let (k, v) := break (Ascii.eqb "=") kv in (k, slice 1 v))
          (filter (fun kv => negb (String.eqb kv "")) (split "&" q))
  end.

(** *** The helpers *)

Fixpoint add_param (k v : string) (q : ParsedUrlQuery) : ParsedUrlQuery :=
  match q with
  | [] => [(k, QString v)]
  | (k', x) :: q' =>
      if String.eqb k' k
      then (k', match x with
                | QString s => QArray [s; v]
                | QArray l => QArray (l ++ [v])%list
                end) :: q'
      else (k', x) :: add_param k v q'
  end.

Definition searchParamsToUrlQuery (sp : list (string * string))
  : ParsedUrlQuery :=
  fold_left (fun q kv => add_param (fst kv) (snd kv) q) sp [].

(** Backslashes become slashes and runs of slashes one slash. *)
Fixpoint collapse (after_slash : bool) (s : string) : string :=
  match s with
  | EmptyString => EmptyString
  | String c s' =>
      if Ascii.eqb c "/" || Ascii.eqb c "\"
      then if after_slash then collapse true s'
           else String "/" (collapse true s')
      else String c (collapse false s')
  end.

Definition normalizeRepeatedSlashes (url : string) : string :=
  let parts := split "?" url in
  collapse false (nth 0 parts "") ++
  (if truthy (nth 1 parts "") then "?" ++ join "?" (tl parts) else "").

Definition normalizePathTrailingSlash (path : string) : string :=
  if negb (startsWith path "/") then path
  else if endsWith path "/"
       then js_or (substring 0 (String.length path - 1) path) "/"
       else path.

Definition is_scheme_char (c : ascii) : bool :=
  is_alpha c || is_digit c || Ascii.eqb c "+" || Ascii.eqb c "-"
  || Ascii.eqb c ".".

Fixpoint scheme_tail (s : string) : bool :=
  match s with
  | EmptyString => false
  | String c s' =>
      if Ascii.eqb c ":" then true
      else if is_scheme_char c then scheme_tail s' else false
  end.

Definition isAbsoluteUrl (url : string) : bool :=
  match url with
  | EmptyString => false
  | String c s' => is_alpha c && scheme_tail s'
  end.

Definition isLocalURL (url : string) : bool := negb (isAbsoluteUrl url).

(** The name and the kind (optional, repeated) of a dynamic segment. *)
Definition dynamic_segment (seg : string) : option (string * bool * bool) :=
  let n := String.length seg in
  if prefix "[[..." seg && endsWith seg "]]" && (8 <=? n)%nat
  then Some (substring 5 (n - 7) seg, true, true)
  else if prefix "[..." seg && endsWith seg "]" && (6 <=? n)%nat
  then Some (substring 4 (n - 5) seg, false, true)
  else if prefix "[" seg && endsWith seg "]" && (3 <=? n)%nat
  then Some (substring 1 (n - 2) seg, false, false)
  else None.

Definition isDynamicRoute (route : string) : bool :=
  existsb (fun seg => match dynamic_segment seg with
                      | Some _ => true
                      | None => false
                      end)
          (tl (split "/" route)).

(** One segment of the route, interpolated: [None] when a required
    parameter is missing, [Some []] when an optional one is dropped. *)
Definition interpolate_segment (query : ParsedUrlQuery) (seg : string)
  : option (list string) :=
  match dynamic_segment seg with
  | None => Some [seg]
  | Some (name, optional, repeat) =>
      match lookup name query with
      | Some (QString v) => Some [v]
      | Some (QArray l) => if repeat then Some l else None
      | None => if optional then Some [] else None
      end
  end.

Fixpoint interpolate_segments (query : ParsedUrlQuery) (segs : list string)
  : option (list string) :=
  match segs with
  | [] => Some []
  | seg :: rest =>
      match interpolate_segment query seg, interpolate_segments query rest with
      | Some a, Some b => Some (a ++ b)%list
      | _, _ => None
      end
  end.

Definition route_params (route : string) : list string :=
  flat_map (fun seg => match dynamic_segment seg with
                       | Some (name, _, _) => [name]
                       | None => []
                       end)
           (tl (split "/" route)).

Definition interpolateAs (route asPathname : string) (query : ParsedUrlQuery)
  : string * list string :=
  (match interpolate_segments query (tl (split "/" route)) with
   | Some segs => js_or (join "" (map (fun seg => "/" ++ seg) segs)) "/"
   | None => ""
   end,
   route_params route).

Definition format_value (k : string) (v : QueryValue) : list string :=
  match v with
  | QString s => [k ++ "=" ++ s]
  | QArray l => map (fun s => k ++ "=" ++ s) l
  end.

Definition formatWithValidation (o : UrlObject) : string :=
  let path := match uo_pathname o with Some p => p | None => "" end in
  let query := match uo_query o with Some q => q | None => [] end in
  let search := join "&" (flat_map (fun kv => format_value (fst kv) (snd kv)) query) in
  let hash := match uo_hash o with Some h => h | None => "" end in
  path
  ++ (if truthy search then "?" ++ search else "")
  ++ (if truthy hash && negb (startsWith hash "#") then "#" ++ hash else hash).

Definition env : Env :=
  @mkEnv Location (list (string * string))
    new_Location loc_href loc_origin loc_pathname loc_hash
    loc_searchParams loc_set_pathname
    formatWithValidation normalizeRepeatedSlashes normalizePathTrailingSlash
    isLocalURL isDynamicRoute searchParamsToUrlQuery interpolateAs.

End TestPlatform.


(** Router states and targets used in the examples. *)
Definition postsRouter : NextRouter := mkRouter "/posts/[id]" "/posts/1".
Definition sectionRouter : NextRouter := mkRouter "/a/[slug]" "/a/b?x=1".
Definition rootRouter : NextRouter := mkRouter "/" "/".
Definition tabbedTarget : string := "/a/" ++ TestPlatform.TAB ++ "/b".
Definition tabbedHostTarget : string := "/" ++ TestPlatform.TAB ++ "/[//x".

(** The environment [E] with other dynamic-route helpers. *)
Definition with_interpolation (E : Env)
  (dynamic : string -> bool)
  (interpolate : string -> string -> ParsedUrlQuery -> string * list string)
  : Env :=
  {| URL := URL E;
     URLSearchParams := URLSearchParams E;
     new_URL := new_URL E;
     URL_href := URL_href E;
     URL_origin := URL_origin E;
     URL_pathname := URL_pathname E;
     URL_hash := URL_hash E;
     URL_searchParams := URL_searchParams E;
     URL_set_pathname := URL_set_pathname E;
     formatWithValidation := formatWithValidation E;
     normalizeRepeatedSlashes := normalizeRepeatedSlashes E;
     normalizePathTrailingSlash := normalizePathTrailingSlash E;
     isLocalURL := isLocalURL E;
     isDynamicRoute := dynamic;
     searchParamsToUrlQuery := searchParamsToUrlQuery E;
     interpolateAs := interpolate |}.

(** Every character of [s] is a letter. *)
Fixpoint all_alpha (s : string) : bool :=
  match s with
  | EmptyString => true
  | String c s' => is_alpha c && all_alpha s'
  end.

(* ================================================================== *)
(** ** The lint command

    The second file of the excerpt, the [next lint] command: the options
    handed to ESLint, the choice of the paths to lint and the handling of
    the lint results. *)

Module NextLint.

(** The values found in the parsed arguments for flags declared [String],
    [[String]] or [Boolean], together with [undefined] (an absent flag) and
    [null]. *)
Inductive JsValue : Type :=
| JUndefined
| JNull
| JBool (b : bool)
| JString (s : string)
| JArray (l : list string).

(** [Boolean(v)]: [undefined], [null], [false] and [''] are falsy. *)
Definition Boolean (v : JsValue) : bool :=
  match v with
  | JUndefined | JNull => false
  | JBool b => b
  | JString s => truthy s
  | JArray _ => true
  end.

(** [a || b] *)
Definition logical_or (a b : JsValue) : JsValue :=
  if Boolean a then a else b.

(** [a ?? b] *)
Definition nullish (a b : JsValue) : JsValue :=
  match a with
  | JUndefined | JNull => b
  | _ => a
  end.

(** The parsed arguments: [args[key]] is [undefined] for an absent key. *)
Definition Args : Type := string -> JsValue.

Record ESLintOptions : Type := mkESLintOptions {
  overrideConfigFile : JsValue;
  extensions : JsValue;
  resolvePluginsRelativeTo : JsValue;
  rulePaths : JsValue;
  fix_ : JsValue;
  fixTypes : JsValue;
  ignorePath : JsValue;
  ignore : JsValue;
  allowInlineConfig : JsValue;
  reportUnusedDisableDirectives : JsValue;
  cache : JsValue;
  cacheLocation : JsValue;
  cacheStrategy : JsValue;
  errorOnUnmatchedPattern : JsValue
}.

(** [eslintOptions], lines 128-155 ([fix_] is the property [fix]). *)
Definition eslintOptions (args : Args) (defaultCacheLocation : string)
  : ESLintOptions :=
  {| overrideConfigFile := logical_or (args "--config") JNull;
     extensions :=
       nullish (args "--ext")
         (JArray [".js"; ".mjs"; ".cjs"; ".jsx"; ".ts"; ".mts"; ".cts"; ".tsx"]);
     resolvePluginsRelativeTo :=
       logical_or (args "--resolve-plugins-relative-to") JNull;
     rulePaths := nullish (args "--rulesdir") (JArray []);
     fix_ := nullish (args "--fix") (JBool false);
     fixTypes := nullish (args "--fix-type") JNull;
     ignorePath := logical_or (args "--ignore-path") JNull;
     ignore := JBool (negb (Boolean (args "--no-ignore")));
     allowInlineConfig := JBool (negb (Boolean (args "--no-inline-config")));
     reportUnusedDisableDirectives :=
       logical_or (args "--report-unused-disable-directives") JNull;
     cache := JBool (negb (Boolean (args "--no-cache")));
     cacheLocation :=
       logical_or (args "--cache-location") (JString defaultCacheLocation);
     cacheStrategy := logical_or (args "--cache-strategy") (JString "metadata");
     errorOnUnmatchedPattern :=
       if Boolean (args "--error-on-unmatched-pattern")
       then JBool (Boolean (args "--error-on-unmatched-pattern"))
       else JBool false |}.

(** The flags read by [eslintOptions]. *)
Definition eslintFlags : list string :=
  ["--config"; "--ext"; "--resolve-plugins-relative-to"; "--rulesdir";
   "--fix"; "--fix-type"; "--ignore-path"; "--no-ignore";
   "--no-inline-config"; "--report-unused-disable-directives"; "--no-cache";
   "--cache-location"; "--cache-strategy"; "--error-on-unmatched-pattern"].

(** The options as a list, in the order of the object literal. *)
Definition optionValues (o : ESLintOptions) : list JsValue :=
  [overrideConfigFile o; extensions o; resolvePluginsRelativeTo o;
   rulePaths o; fix_ o; fixTypes o; ignorePath o; ignore o;
   allowInlineConfig o; reportUnusedDisableDirectives o; cache o;
   cacheLocation o; cacheStrategy o; errorOnUnmatchedPattern o].

(** *** The paths to lint (lines 278-294) *)

(** [args['--dir']] and [args['--file']]: [undefined] or an array of
    strings, as their declared type [[String]] has it. *)
Record LintArgs : Type := mkLintArgs {
  arg_dir : option (list string);
  arg_file : option (list string)
}.

(** What is read of the loaded configuration: [nextConfig.eslint?.dirs]
    and [!!nextConfig.experimental.appDir]. *)
Record NextConfig : Type := mkNextConfig {
  eslint_dirs : option (list string);
  experimental_appDir : bool
}.

Section PathsToLint.

(** [existsSync] of [fs], [join] of [path] and the two constants of
    [lib/constants] are not part of the file. *)
Variable existsSync : string -> bool.
Variable join : string -> string -> string.
Variable ESLINT_DEFAULT_DIRS : list string.
Variable ESLINT_DEFAULT_DIRS_WITH_APP : list string.

(** [args['--file'] ?? []] *)
Definition files (args : LintArgs) : list string :=
  match arg_file args with
  | Some l => l
  | None => []
  end.

(** [args['--dir'] ?? nextConfig.eslint?.dirs] *)
Definition dirs (args : LintArgs) (nextConfig : NextConfig)
  : option (list string) :=
  match arg_dir args with
  | Some l => Some l
  | None => eslint_dirs nextConfig
  end.

(** [[...(dirs ?? []), ...files]] *)
Definition filesToLint (args : LintArgs) (nextConfig : NextConfig)
  : list string :=
  (match dirs args nextConfig with
   | Some l => l
   | None => []
   end ++ files args)%list.

Definition directoriesToLint (nextConfig : NextConfig) : list string :=
  if experimental_appDir nextConfig
  then ESLINT_DEFAULT_DIRS_WITH_APP
  else ESLINT_DEFAULT_DIRS.

(** The callback of [reduce]. *)
Definition keepExisting (baseDir : string) (res : list string) (d : string)
  : list string :=
  let currDir := join baseDir d in
  if negb (existsSync currDir) then res else (res ++ [currDir])%list.

Definition pathsToLint (baseDir : string) (args : LintArgs)
  (nextConfig : NextConfig) : list string :=
  fold_left (keepExisting baseDir)
    (if negb (Nat.eqb (List.length (filesToLint args nextConfig)) 0)
     then filesToLint args nextConfig
     else directoriesToLint nextConfig)
    [].

End PathsToLint.

(** *** The lint results (lines 315-348) *)

(** What [runLintCheck] resolves to, by the cases the handler tells apart:
    a string, [null] or [undefined], or an object whose [output],
    [isError] (by its truthiness) and [eventInfo] are read. *)
Inductive LintResults (Info : Type) : Type :=
| LintText (output : string)
| LintNothing
| LintReport (output : option string) (isError : bool)
    (eventInfo : option Info).
Arguments LintText {Info} output.
Arguments LintNothing {Info}.
Arguments LintReport {Info} output isError eventInfo.

(** What the handlers do to the outside: the telemetry event with its
    [buildLint] property, [telemetry.flush()], and [printAndExit] with its
    message and, when given, its exit code.  Each of these calls is taken
    to complete normally. *)
Inductive Event (Info : Type) : Type :=
| TelemetryRecord (eventInfo : Info) (buildLint : bool)
| TelemetryFlush
| PrintAndExit (message : string) (code : option nat).
Arguments TelemetryRecord {Info} eventInfo buildLint.
Arguments TelemetryFlush {Info}.
Arguments PrintAndExit {Info} message code.

Section LintResultsHandling.

Variable Info : Type.

(** [chalk.green] and the [message] of a [CompileError] built from a
    string are not part of the file. *)
Variable green : string -> string.
Variable CompileError_message : string -> string.

(** [typeof lintResults === 'string' ? lintResults : lintResults?.output] *)
Definition lintOutput (lintResults : LintResults Info) : option string :=
  match lintResults with
  | LintText s => Some s
  | LintNothing => None
  | LintReport output _ _ => output
  end.

Definition truthy_opt (o : option string) : bool :=
  match o with
  | Some s => truthy s
  | None => false
  end.

(** Truthiness of [lintResults] itself. *)
Definition truthy_results (lintResults : LintResults Info) : bool :=
  match lintResults with
  | LintText s => truthy s
  | LintNothing => false
  | LintReport _ _ _ => true
  end.

(** [typeof lintResults !== 'string'] *)
Definition not_a_string (lintResults : LintResults Info) : bool :=
  match lintResults with
  | LintText _ => false
  | _ => true
  end.

(** [lintResults?.eventInfo] *)
Definition eventInfoOf (lintResults : LintResults Info) : option Info :=
  match lintResults with
  | LintReport _ _ eventInfo => eventInfo
  | _ => None
  end.

(** Truthiness of [lintResults?.isError]. *)
Definition isErrorOf (lintResults : LintResults Info) : bool :=
  match lintResults with
  | LintReport _ isError _ => isError
  | _ => false
  end.

(** The string held by a truthy [lintOutput]. *)
Definition text (o : option string) : string :=
  match o with
  | Some s => s
  | None => ""
  end.

(** The [then] callback: the events in order, and the message of the
    error it throws, if it throws. *)
Definition onLintResults (lintResults : LintResults Info)
  : list (Event Info) * option string :=
  let lintOutput := lintOutput lintResults in
  let telemetry :=
    match not_a_string lintResults, eventInfoOf lintResults with
    | true, Some eventInfo => [TelemetryRecord eventInfo false; TelemetryFlush]
    | _, _ => []
    end in
  if not_a_string lintResults && isErrorOf lintResults && truthy_opt lintOutput
  then (telemetry, Some (CompileError_message (text lintOutput)))
  else if truthy_opt lintOutput
  then ((telemetry ++ [PrintAndExit (text lintOutput) (Some 0)])%list, None)
  else if truthy_results lintResults && negb (truthy_opt lintOutput)
  then ((telemetry ++
         [PrintAndExit (green "✔ No ESLint warnings or errors") (Some 0)])%list,
        None)
  else (telemetry, None).

(** How the promise of [runLintCheck] settles: rejected with an error of
    the given message, or resolved. *)
Inductive Settled : Type :=
| Rejected (message : string)
| Resolved (lintResults : LintResults Info).

(** [.then(...).catch((err) => printAndExit(err.message))] *)
Definition afterLintCheck (settled : Settled) : list (Event Info) :=
  match settled with
  | Rejected message => [PrintAndExit message None]
  | Resolved lintResults =>
      match onLintResults lintResults with
      | (events, Some message) =>
          (events ++ [PrintAndExit message None])%list
      | (events, None) => events
      end
  end.

End LintResultsHandling.

End NextLint.

(** A file system with [/app/pages] and [/app/src], the base directory and
    an entry joined by a slash. *)
Definition demoExists (path : string) : bool :=
  String.eqb path "/app/pages" || String.eqb path "/app/src".

Definition demoJoin (a b : string) : string := a ++ "/" ++ b.

(** The paths of [entries] under [baseDir] that exist, in order. *)
Definition existingUnder (existsSync : string -> bool)
  (join : string -> string -> string) (baseDir : string)
  (entries : list string) : list string :=
  filter existsSync (map (join baseDir) entries).

(* ================================================================== *)
(** ** A concrete environment with opaque paths *)

(** The concrete environment extended with the URLs that have an opaque
    path, such as [a:] or [mailto:x]: a scheme that is not one of the
    special ones, followed by [:] and something that does not start with
    [/].  The origin of such a URL is opaque and serializes as ["null"]; its
    [pathname] cannot be set; against such a base only a reference that
    starts with [#] can be resolved.  Schemes are made of letters and the
    query of an opaque path is left in the path. *)
Module OpaquePlatform.

Inductive Address : Type :=
| Hierarchical (l : TestPlatform.Location)
| OpaquePath (scheme path fragment : string).

Definition address_href (u : Address) : string :=
  match u with
  | Hierarchical l => TestPlatform.loc_href l
  | OpaquePath scheme path fragment => scheme ++ ":" ++ path ++ fragment
  end.

Definition address_origin (u : Address) : string :=
  match u with
  | Hierarchical l => TestPlatform.loc_origin l
  | OpaquePath _ _ _ => "null"
  end.

Definition address_pathname (u : Address) : string :=
  match u with
  | Hierarchical l => TestPlatform.loc_pathname l
  | OpaquePath _ path _ => path
  end.

Definition address_hash (u : Address) : string :=
  match u with
  | Hierarchical l => TestPlatform.loc_hash l
  | OpaquePath _ _ fragment => fragment
  end.

Definition address_searchParams (u : Address) : list (string * string) :=
  match u with
  | Hierarchical l => TestPlatform.loc_searchParams l
  | OpaquePath _ _ _ => []
  end.

Definition address_set_pathname (u : Address) (p : string) : Address :=
  match u with
  | Hierarchical l => Hierarchical (TestPlatform.loc_set_pathname l p)
  | OpaquePath _ _ _ => u
  end.

Definition special_scheme (scheme : string) : bool :=
  existsb (String.eqb scheme) ["http"; "https"; "ftp"; "ws"; "wss"; "file"].

(** An absolute URL with an opaque path. *)
Definition parse_opaque (r : string) : option Address :=
  let (letters, rest) := span_alpha r in
  match rest with
  | String c tail =>
      if Ascii.eqb c ":" && negb (String.eqb letters "")
         && negb (special_scheme letters) && negb (prefix "/" tail)
      then let (path, fragment) := TestPlatform.break (Ascii.eqb "#") tail in
           Some (OpaquePath letters path fragment)
      else None
  | EmptyString => None
  end.

Definition lift (o : option TestPlatform.Location) : option Address :=
  match o with
  | Some l => Some (Hierarchical l)
  | None => None
  end.

Definition new_Address (input : string) (base : UrlBase Address)
  : option Address :=
  let r :=
    TestPlatform.string_filter
      (fun c => negb (TestPlatform.is_tab_or_newline c)) input in
  match parse_opaque r with
  | Some u => Some u
  | None =>
      match base with
      | BaseURL (OpaquePath scheme path _) =>
          if prefix "#" r then Some (OpaquePath scheme path r) else None
      | BaseURL (Hierarchical l) =>
          lift (TestPlatform.new_Location input (BaseURL l))
      | BaseString s => lift (TestPlatform.new_Location input (BaseString s))
      end
  end.

Definition env : Env :=
  @mkEnv Address (list (string * string))
    new_Address address_href address_origin address_pathname address_hash
    address_searchParams address_set_pathname
    TestPlatform.formatWithValidation TestPlatform.normalizeRepeatedSlashes
    TestPlatform.normalizePathTrailingSlash TestPlatform.isLocalURL
    TestPlatform.isDynamicRoute TestPlatform.searchParamsToUrlQuery
    TestPlatform.interpolateAs.

End OpaquePlatform.


Unset Implicit Arguments.

(* ================================================================== *)
(** ** Basic facts *)

Lemma js_or_nonempty (a b : string) : a <> "" -> js_or a b = a.
Proof.
  intros Ha. unfold js_or.
  destruct (String.eqb_spec a "") as [Heq | _]; [contradiction | reflexivity].
Qed.

Lemma js_or_empty (b : string) : js_or "" b = b.
Proof. reflexivity. Qed.


Lemma truthy_true (s : string) : truthy s = true <-> s <> "".
Proof.
  unfold truthy. destruct (String.eqb_spec s ""); simpl; split; intros; try congruence.
Qed.


Lemma slice_append (a b : string) : slice (String.length a) (a ++ b) = b.
Proof. induction a as [| c a IH]; simpl; auto. Qed.

Lemma split_nonempty (sep : ascii) (s : string) : split sep s <> [].
Proof.
  destruct s as [| c s]; simpl; [discriminate |].
  destruct (Ascii.eqb c sep); [discriminate |].
  destruct (split sep s); discriminate.
Qed.

(** The first part of a split is what precedes the first separator. *)
Lemma split_head_append (sep : ascii) (p q : string) :
  occurs sep p = false ->
  nth 0 (split sep (p ++ String sep q)) "" = p.
Proof.
  induction p as [| c p IH]; simpl; intros Hocc.
  - rewrite Ascii.eqb_refl. reflexivity.
  - apply orb_false_iff in Hocc. destruct Hocc as [Hc Hp].
    rewrite Hc. specialize (IH Hp).
    destruct (split sep (p ++ String sep q)) as [| part parts] eqn:Hs.
    + exfalso. exact (split_nonempty _ _ Hs).
    + simpl in *. now rewrite IH.
Qed.

Lemma split_head_whole (sep : ascii) (p : string) :
  occurs sep p = false -> nth 0 (split sep p) "" = p.
Proof.
  induction p as [| c p IH]; simpl; intros Hocc; [reflexivity |].
  apply orb_false_iff in Hocc. destruct Hocc as [Hc Hp].
  rewrite Hc. specialize (IH Hp).
  destruct (split sep p) as [| part parts] eqn:Hs.
  - exfalso. exact (split_nonempty _ _ Hs).
  - simpl in *. now rewrite IH.
Qed.

Lemma js_or_empty_r (a : string) : js_or a "" = a.
Proof. unfold js_or. destruct (String.eqb_spec a ""); congruence. Qed.

(** The string primitives on the inputs of the examples. *)
Example urlProtoMatch_https :
  urlProtoMatch "https://example.com/x" = Some "https://" /\
  urlAsStringNoProto "https://example.com/x" = "example.com/x" /\
  urlProtoMatch "/posts/[id]" = None /\
  urlProtoMatch "://x" = None /\
  urlProtoMatch "mailto:a@b" = None.
Proof. repeat split. Qed.

Example split_question_mark :
  split "?" "/a?b=1?c" = ["/a"; "b=1"; "c"] /\
  split "?" "" = [""] /\
  split "?" "/a?" = ["/a"; ""].
Proof. repeat split. Qed.

Example needsRepair_examples :
  needsRepair "//evil.com\path" = true /\
  needsRepair "/a\b" = true /\
  needsRepair "https://example.com/x" = false /\
  needsRepair "https://example.com//x" = true /\
  needsRepair "/posts?next=//x" = false.
Proof. repeat split. Qed.

(* ================================================================== *)
(** ** How [resolveHref] completes *)

Section Characterization.

Variable E : Env.

Lemma repairHref_eq (s : string) :
  repairHref E s =
  (if needsRepair s then [invalidHrefMessage s] else [],
   Returned (if needsRepair s then repaired E s else s)).
Proof. unfold repairHref. destruct (needsRepair s); reflexivity. Qed.

Lemma constructBase_eq (router : NextRouter) (u : string) :
  constructBase E router u =
  ([], match new_URL E (basePath router u) (BaseString "http://n") with
       | Some b => Returned b
       | None =>
           match new_URL E "/" (BaseString "http://n") with
           | Some b => Returned b
           | None => Thrown
           end
       end).
Proof.
  unfold constructBase, basePath.
  destruct (new_URL E _ (BaseString "http://n")); simpl; [reflexivity |].
  destruct (new_URL E "/" (BaseString "http://n")); reflexivity.
Qed.

Lemma constructFinalUrl_eq (u : string) (base : URL E) :
  constructFinalUrl E u base =
  ([], match new_URL E u (BaseURL base) with
       | Some f =>
           Returned (URL_set_pathname E f
                       (normalizePathTrailingSlash E (URL_pathname E f)))
       | None => Thrown
       end).
Proof.
  unfold constructFinalUrl. destruct (new_URL E u (BaseURL base)); reflexivity.
Qed.

(** The second [try] never lets an exception out. *)
Lemma resolveAgainst_eq (u : string) (base : URL E) (resolveAs : bool) :
  resolveAgainst E u base resolveAs =
  ([], Returned
         match outcome (constructFinalUrl E u base) with
         | Returned finalUrl =>
             if resolveAs
             then Pair (resolvedHrefOf E finalUrl base)
                       (js_or (interpolatedAsOf E finalUrl resolveAs)
                              (resolvedHrefOf E finalUrl base))
             else Single (resolvedHrefOf E finalUrl base)
         | Thrown => unresolved u resolveAs
         end).
Proof.
  unfold resolveAgainst. rewrite constructFinalUrl_eq.
  destruct (new_URL E u (BaseURL base)); reflexivity.
Qed.

Lemma resolveHref_diagnostics (router : NextRouter) (href : Url)
  (resolveAs : bool) :
  diagnostics (resolveHref E router href resolveAs) =
  if needsRepair (hrefToString E href)
  then [invalidHrefMessage (hrefToString E href)]
  else [].
Proof.
  unfold resolveHref, diagnostics. rewrite repairHref_eq.
  set (u := if needsRepair _ then repaired E _ else _).
  unfold bind at 1.
  destruct (isLocalURL E u); simpl.
  - rewrite constructBase_eq. unfold bind.
    destruct (match new_URL E (basePath router u) (BaseString "http://n") with
              | Some b => Returned b
              | None => _
              end).
    + rewrite resolveAgainst_eq. simpl. now rewrite app_nil_r.
    + simpl. now rewrite app_nil_r.
  - now rewrite app_nil_r.
Qed.

Lemma resolveHref_outcome (router : NextRouter) (href : Url)
  (resolveAs : bool) :
  outcome (resolveHref E router href resolveAs) =
  let u := urlAsStringOf E href in
  if negb (isLocalURL E u) then Returned (unresolved u resolveAs)
  else match outcome (constructBase E router u) with
       | Returned base => outcome (resolveAgainst E u base resolveAs)
       | Thrown => Thrown
       end.
Proof.
  unfold resolveHref, outcome, urlAsStringOf. rewrite repairHref_eq.
  set (u := if needsRepair _ then repaired E _ else _).
  unfold bind at 1. cbv zeta.
  destruct (isLocalURL E u); simpl; [| reflexivity].
  rewrite constructBase_eq. unfold bind. simpl.
  destruct (match new_URL E (basePath router u) (BaseString "http://n") with
            | Some b => Returned b
            | None => _
            end); [| reflexivity].
  rewrite resolveAgainst_eq. reflexivity.
Qed.

(** With a constructible root, the base is always obtained. *)
Lemma constructBase_returns (router : NextRouter) (u : string) :
  new_URL E "/" (BaseString "http://n") <> None ->
  exists base, outcome (constructBase E router u) = Returned base.
Proof.
  intros Hroot. rewrite constructBase_eq. unfold outcome. simpl.
  destruct (new_URL E (basePath router u) (BaseString "http://n")) as [b |].
  - now exists b.
  - destruct (new_URL E "/" (BaseString "http://n")) as [b |]; [| contradiction].
    now exists b.
Qed.

(** The result of a local target whose base and final URL were built. *)
Lemma resolveHref_resolved (router : NextRouter) (href : Url)
  (resolveAs : bool) (base finalUrl : URL E) :
  isLocalURL E (urlAsStringOf E href) = true ->
  outcome (constructBase E router (urlAsStringOf E href)) = Returned base ->
  outcome (constructFinalUrl E (urlAsStringOf E href) base) = Returned finalUrl ->
  outcome (resolveHref E router href resolveAs) =
  Returned (if resolveAs
            then Pair (resolvedHrefOf E finalUrl base)
                      (js_or (interpolatedAsOf E finalUrl resolveAs)
                             (resolvedHrefOf E finalUrl base))
            else Single (resolvedHrefOf E finalUrl base)).
Proof.
  intros Hlocal Hbase Hfinal.
  rewrite resolveHref_outcome. cbv zeta.
  rewrite Hlocal, Hbase. simpl. rewrite resolveAgainst_eq. unfold outcome at 1.
  simpl. now rewrite Hfinal.
Qed.

(** A two-element result comes from a resolved local target. *)
Lemma resolveHref_pair_inv (router : NextRouter) (href : Url)
  (resolveAs : bool) (h a : string) :
  outcome (resolveHref E router href resolveAs) = Returned (Pair h a) ->
  resolveAs = true /\
  isLocalURL E (urlAsStringOf E href) = true /\
  exists base finalUrl,
    outcome (constructBase E router (urlAsStringOf E href)) = Returned base /\
    outcome (constructFinalUrl E (urlAsStringOf E href) base) = Returned finalUrl /\
    h = resolvedHrefOf E finalUrl base /\
    a = js_or (interpolatedAsOf E finalUrl true) h.
Proof.
  rewrite resolveHref_outcome. cbv zeta.
  destruct (isLocalURL E (urlAsStringOf E href)) eqn:Hlocal; simpl.
  2:{ destruct resolveAs; discriminate. }
  destruct (outcome (constructBase E router (urlAsStringOf E href)))
    as [base |] eqn:Hbase; [| discriminate].
  rewrite resolveAgainst_eq. unfold outcome at 1. simpl.
  destruct (outcome (constructFinalUrl E (urlAsStringOf E href) base))
    as [finalUrl |] eqn:Hfinal.
  - destruct resolveAs; [| discriminate].
    intros H. injection H as Hh Ha. subst h.
    repeat split; auto. exists base, finalUrl. repeat split; auto.
  - destruct resolveAs; discriminate.
Qed.

End Characterization.

(* ================================================================== *)
(** ** Facts about the scan for repeated slashes *)

Lemma span_alpha_append (s : string) :
  fst (span_alpha s) ++ snd (span_alpha s) = s.
Proof.
  induction s as [| c s IH]; simpl; [reflexivity |].
  destruct (is_alpha c); [| reflexivity].
  destruct (span_alpha s) as [letters rest]. simpl in *. now rewrite IH.
Qed.

Lemma prefix_append (p s : string) :
  prefix p s = true -> p ++ slice (String.length p) s = s.
Proof.
  revert s. induction p as [| c p IH]; intros s Hp; [reflexivity |].
  destruct s as [| d s]; simpl in Hp; [discriminate |].
  destruct (ascii_dec c d) as [-> | _]; [| discriminate].
  simpl. now rewrite IH.
Qed.

Lemma append_assoc (a b c : string) : (a ++ b) ++ c = a ++ (b ++ c).
Proof. induction a as [| x a IH]; simpl; [reflexivity | now rewrite IH]. Qed.


(** The scheme prefix and the rest make up the string again. *)
Lemma proto_reattached (s : string) :
  match urlProtoMatch s with Some m => m | None => "" end
  ++ urlAsStringNoProto s = s.
Proof.
  unfold urlAsStringNoProto, urlProtoMatch.
  pose proof (span_alpha_append s) as Hs.
  destruct (span_alpha s) as [letters rest]. simpl in Hs.
  destruct (negb (letters =? "") && prefix "://" rest) eqn:Hm; [| reflexivity].
  apply andb_true_iff in Hm. destruct Hm as [_ Hp].
  apply prefix_append in Hp.
  remember (slice (String.length "://") rest) as tail eqn:Htail.
  clear Htail. subst rest. subst s.
  rewrite <- (append_assoc letters "://" tail).
  now rewrite slice_append.
Qed.

(* ================================================================== *)
(** ** The claims *)

(** C1, as stated, fails: when the resolution of a repaired target fails,
    the string that comes back is the repaired one, not the original input.
    The target [/<TAB>/[//x] contains [//], so it is repaired to
    [/<TAB>/[/x]; that string is local, the URL parser drops the tab and
    rejects the host of [//[/x], and the [catch] returns the repaired
    string. *)
Lemma failure_returns_repaired_string :
  needsRepair tabbedHostTarget = true /\
  isLocalURL TestPlatform.env
    (urlAsStringOf TestPlatform.env (UrlString tabbedHostTarget)) = true /\
  (forall base,
     outcome (constructFinalUrl TestPlatform.env
                (urlAsStringOf TestPlatform.env (UrlString tabbedHostTarget))
                base) = Thrown) /\
  outcome (resolveHref TestPlatform.env rootRouter
             (UrlString tabbedHostTarget) false)
  = Returned (Single ("/" ++ TestPlatform.TAB ++ "/[/x")) /\
  outcome (resolveHref TestPlatform.env rootRouter
             (UrlString tabbedHostTarget) false)
  <> Returned (Single tabbedHostTarget).
Proof.
  split; [reflexivity |].
  split; [reflexivity |].
  split; [intros base; reflexivity |].
  split; [reflexivity |].
  vm_compute. discriminate.
Qed.

(** C1, amended: [resolveHref] never lets an exception out (the URL
    constructor accepting [/] against the placeholder base): the base is
    always obtained, and when the construction of the final URL fails the
    result is [urlAsString], the serialized target after the repair of
    repeated slashes, bare or as a one-element array according to
    [resolveAs].  [urlAsString] is the original input when the target is a
    string that needs no repair. *)
Theorem resolveHref_failures_degrade (E : Env) (router : NextRouter)
  (href : Url) (resolveAs : bool) :
  new_URL E "/" (BaseString "http://n") <> None ->
  exists base v,
    outcome (constructBase E router (urlAsStringOf E href)) = Returned base /\
    outcome (resolveHref E router href resolveAs) = Returned v /\
    (isLocalURL E (urlAsStringOf E href) = true ->
     outcome (constructFinalUrl E (urlAsStringOf E href) base) = Thrown ->
     v = if resolveAs then One (urlAsStringOf E href)
         else Single (urlAsStringOf E href)) /\
    (forall s, href = UrlString s -> needsRepair s = false ->
               urlAsStringOf E href = s).
Proof.
  intros Hroot.
  destruct (constructBase_returns E router (urlAsStringOf E href) Hroot)
    as [base Hbase].
  exists base.
  assert (Hres := resolveHref_outcome E router href resolveAs).
  cbv zeta in Hres. rewrite Hbase in Hres.
  rewrite resolveAgainst_eq in Hres. unfold outcome at 2 in Hres.
  simpl in Hres.
  destruct (isLocalURL E (urlAsStringOf E href)) eqn:Hlocal; simpl in Hres.
  - eexists. split; [exact Hbase |]. split; [exact Hres |]. split.
    + intros _ Hfail. rewrite Hfail. reflexivity.
    + intros s -> Hs. unfold urlAsStringOf. simpl. now rewrite Hs.
  - eexists. split; [exact Hbase |]. split; [exact Hres |]. split.
    + intros Habs. discriminate.
    + intros s -> Hs. unfold urlAsStringOf. simpl. now rewrite Hs.
Qed.

Lemma resolveHref_failures_degrade_witness :
  new_URL TestPlatform.env "/" (BaseString "http://n") <> None /\
  exists v,
    outcome (resolveHref TestPlatform.env rootRouter
               (UrlString tabbedHostTarget) true) = Returned v.
Proof.
  assert (Hroot : new_URL TestPlatform.env "/" (BaseString "http://n") <> None)
    by (vm_compute; discriminate).
  split; [exact Hroot |].
  destruct (resolveHref_failures_degrade TestPlatform.env rootRouter
              (UrlString tabbedHostTarget) true Hroot)
    as (base & v & _ & Hv & _).
  exists v. exact Hv.
Defined.

(** C4: a target that the local-URL test rejects is returned as it stands
    after the repair, bare when [resolveAs] is false and as a one-element
    array when it is true.  No URL is constructed: the result is the same
    whatever the [URL] constructor does. *)
Theorem nonlocal_target_returned_unchanged (E : Env) (router : NextRouter)
  (href : Url) (resolveAs : bool) :
  isLocalURL E (urlAsStringOf E href) = false ->
  outcome (resolveHref E router href resolveAs)
  = Returned (if resolveAs then One (urlAsStringOf E href)
              else Single (urlAsStringOf E href)) /\
  forall ctor,
    outcome (resolveHref (with_new_URL E ctor) router href resolveAs)
    = Returned (if resolveAs then One (urlAsStringOf E href)
                else Single (urlAsStringOf E href)).
Proof.
  intros Hforeign. split.
  - rewrite resolveHref_outcome. cbv zeta. now rewrite Hforeign.
  - intros ctor. rewrite resolveHref_outcome. cbv zeta.
    change (urlAsStringOf (with_new_URL E ctor) href)
      with (urlAsStringOf E href).
    change (isLocalURL (with_new_URL E ctor)) with (isLocalURL E).
    now rewrite Hforeign.
Qed.

Lemma nonlocal_target_returned_unchanged_witness :
  isLocalURL TestPlatform.env "https://example.com/x" = false /\
  outcome (resolveHref TestPlatform.env postsRouter
             (UrlString "https://example.com/x") false)
  = Returned (Single "https://example.com/x") /\
  outcome (resolveHref TestPlatform.env postsRouter
             (UrlString "https://example.com/x") true)
  = Returned (One "https://example.com/x").
Proof.
  split; [reflexivity |]. split.
  - exact (proj1 (nonlocal_target_returned_unchanged TestPlatform.env
                    postsRouter (UrlString "https://example.com/x") false
                    eq_refl)).
  - exact (proj1 (nonlocal_target_returned_unchanged TestPlatform.env
                    postsRouter (UrlString "https://example.com/x") true
                    eq_refl)).
Defined.

(** C5: for a local target the base is [new URL(router.asPath, 'http://n')]
    when [urlAsString] starts with [#] and
    [new URL(router.pathname, 'http://n')] otherwise; when that constructor
    throws, the base is [new URL('/', 'http://n')].  No exception escapes:
    the target is resolved against that base and [resolveHref] returns. *)
Theorem resolution_base (E : Env) (router : NextRouter) (href : Url)
  (resolveAs : bool) :
  new_URL E "/" (BaseString "http://n") <> None ->
  isLocalURL E (urlAsStringOf E href) = true ->
  exists base v,
    Some base
    = match new_URL E
              (if startsWith (urlAsStringOf E href) "#"
               then asPath router else pathname router)
              (BaseString "http://n")
      with
      | Some b => Some b
      | None => new_URL E "/" (BaseString "http://n")
      end /\
    outcome (constructBase E router (urlAsStringOf E href)) = Returned base /\
    outcome (resolveHref E router href resolveAs)
    = outcome (resolveAgainst E (urlAsStringOf E href) base resolveAs) /\
    outcome (resolveHref E router href resolveAs) = Returned v.
Proof.
  intros Hroot Hlocal.
  assert (Hres := resolveHref_outcome E router href resolveAs).
  cbv zeta in Hres. rewrite Hlocal in Hres. simpl in Hres.
  assert (Hb := constructBase_eq E router (urlAsStringOf E href)).
  unfold basePath in Hb.
  destruct (new_URL E
              (if startsWith (urlAsStringOf E href) "#"
               then asPath router else pathname router)
              (BaseString "http://n")) as [b |] eqn:Hfirst.
  - rewrite Hb in Hres. unfold outcome at 2 in Hres. simpl in Hres.
    exists b. eexists. split; [reflexivity |].
    split; [rewrite Hb; reflexivity |].
    split; [exact Hres |].
    rewrite Hres, resolveAgainst_eq. reflexivity.
  - destruct (new_URL E "/" (BaseString "http://n")) as [b |] eqn:Hsecond;
      [| contradiction].
    rewrite Hb in Hres. unfold outcome at 2 in Hres. simpl in Hres.
    exists b. eexists. split; [reflexivity |].
    split; [rewrite Hb; reflexivity |].
    split; [exact Hres |].
    rewrite Hres, resolveAgainst_eq. reflexivity.
Qed.

Lemma resolution_base_witness :
  new_URL TestPlatform.env "/" (BaseString "http://n") <> None /\
  isLocalURL TestPlatform.env "#section" = true /\
  exists base,
    URL_href TestPlatform.env base = "http://n/a/b?x=1" /\
    outcome (resolveHref TestPlatform.env sectionRouter
               (UrlString "#section") false)
    = outcome (resolveAgainst TestPlatform.env "#section" base false).
Proof.
  assert (Hroot : new_URL TestPlatform.env "/" (BaseString "http://n") <> None)
    by (vm_compute; discriminate).
  split; [exact Hroot |]. split; [reflexivity |].
  destruct (resolution_base TestPlatform.env sectionRouter
              (UrlString "#section") false Hroot eq_refl)
    as (base & v & Hbase & _ & Hres & _).
  exists base. split; [| exact Hres].
  vm_compute in Hbase. injection Hbase as ->. reflexivity.
Defined.





(** C8: the string returned without [resolveAs] is element 0 of the array
    returned with it.  This holds for every target and router state, so in
    particular for the local relative targets whose path has no dynamic
    segment. *)
Theorem single_is_first_of_pair (E : Env) (router : NextRouter) (href : Url) :
  outcome (resolveHref E router href false)
  = outcome_map (fun v => Single (firstOf v))
      (outcome (resolveHref E router href true)).
Proof.
  rewrite !resolveHref_outcome. cbv zeta.
  destruct (isLocalURL E (urlAsStringOf E href)); simpl; [| reflexivity].
  destruct (outcome (constructBase E router (urlAsStringOf E href)))
    as [base |]; [| reflexivity].
  rewrite !resolveAgainst_eq. unfold outcome at 1 3. simpl.
  destruct (outcome (constructFinalUrl E (urlAsStringOf E href) base));
    reflexivity.
Qed.

(** [omit] removes the listed keys and nothing else. *)
Lemma existsb_eqb_In (k : string) (keys : list string) :
  existsb (String.eqb k) keys = true <-> In k keys.
Proof.
  rewrite existsb_exists. split.
  - intros (x & Hin & Heq). apply String.eqb_eq in Heq. now subst x.
  - intros Hin. exists k. split; [exact Hin | apply String.eqb_refl].
Qed.

Lemma lookup_omit_consumed (k : string) (keys : list string)
  (query : ParsedUrlQuery) :
  In k keys -> lookup k (omit query keys) = None.
Proof.
  intros Hin. induction query as [| [k' v] query IH]; simpl; [reflexivity |].
  destruct (existsb (String.eqb k') keys) eqn:Hk'; simpl; [exact IH |].
  destruct (String.eqb_spec k' k) as [-> | _]; [| exact IH].
  apply existsb_eqb_In in Hin. congruence.
Qed.

Lemma lookup_omit_other (k : string) (keys : list string)
  (query : ParsedUrlQuery) :
  ~ In k keys -> lookup k (omit query keys) = lookup k query.
Proof.
  intros Hout. induction query as [| [k' v] query IH]; simpl; [reflexivity |].
  destruct (existsb (String.eqb k') keys) eqn:Hk'; simpl.
  - destruct (String.eqb_spec k' k) as [-> | _]; [| exact IH].
    apply existsb_eqb_In in Hk'. contradiction.
  - destruct (String.eqb_spec k' k); [reflexivity | exact IH].
Qed.

(** [interpolatedAs] when the interpolation has a result. *)
Lemma interpolatedAsOf_success (E : Env) (finalUrl : URL E)
  (result : string) (params : list string) :
  isDynamicRoute E (URL_pathname E finalUrl) = true ->
  interpolateAs E (URL_pathname E finalUrl) (URL_pathname E finalUrl)
    (searchParamsToUrlQuery E (URL_searchParams E finalUrl))
  = (result, params) ->
  result <> "" ->
  interpolatedAsOf E finalUrl true
  = formatWithValidation E
      {| uo_pathname := Some result;
         uo_hash := Some (URL_hash E finalUrl);
         uo_query :=
           Some (omit (searchParamsToUrlQuery E (URL_searchParams E finalUrl))
                      params) |}.
Proof.
  intros Hdyn Hinterp Hresult. unfold interpolatedAsOf.
  rewrite Hdyn. simpl. rewrite Hinterp.
  apply truthy_true in Hresult. now rewrite Hresult.
Qed.

(** C2: when the interpolation succeeds, the 'as' string is serialized
    from the query without the consumed parameters, every other parameter
    being kept, and the href is the resolved URL as it is returned without
    [resolveAs]. *)
Theorem as_omits_consumed_params (E : Env) (router : NextRouter) (href : Url)
  (base finalUrl : URL E) (result : string) (params : list string) :
  isLocalURL E (urlAsStringOf E href) = true ->
  outcome (constructBase E router (urlAsStringOf E href)) = Returned base ->
  outcome (constructFinalUrl E (urlAsStringOf E href) base)
  = Returned finalUrl ->
  isDynamicRoute E (URL_pathname E finalUrl) = true ->
  interpolateAs E (URL_pathname E finalUrl) (URL_pathname E finalUrl)
    (searchParamsToUrlQuery E (URL_searchParams E finalUrl))
  = (result, params) ->
  result <> "" ->
  let query := searchParamsToUrlQuery E (URL_searchParams E finalUrl) in
  let remaining := omit query params in
  let serialized :=
    formatWithValidation E
      {| uo_pathname := Some result;
         uo_hash := Some (URL_hash E finalUrl);
         uo_query := Some remaining |} in
  let resolvedHref := resolvedHrefOf E finalUrl base in
  outcome (resolveHref E router href true)
  = Returned (Pair resolvedHref (js_or serialized resolvedHref)) /\
  (serialized <> "" ->
   outcome (resolveHref E router href true)
   = Returned (Pair resolvedHref serialized)) /\
  (forall k, In k params -> lookup k remaining = None) /\
  (forall k, ~ In k params -> lookup k remaining = lookup k query) /\
  outcome (resolveHref E router href false) = Returned (Single resolvedHref).
Proof.
  intros Hlocal Hbase Hfinal Hdyn Hinterp Hresult. cbv zeta.
  assert (Htrue := resolveHref_resolved E router href true base finalUrl
                     Hlocal Hbase Hfinal).
  assert (Hfalse := resolveHref_resolved E router href false base finalUrl
                      Hlocal Hbase Hfinal).
  simpl in Htrue, Hfalse.
  rewrite (interpolatedAsOf_success E finalUrl result params
             Hdyn Hinterp Hresult) in Htrue.
  split; [exact Htrue |].
  split; [intros Hser; rewrite Htrue; now rewrite js_or_nonempty |].
  split; [intros k; apply lookup_omit_consumed |].
  split; [intros k; apply lookup_omit_other | exact Hfalse].
Qed.

Lemma as_omits_consumed_params_witness :
  outcome (resolveHref TestPlatform.env postsRouter
             (UrlString "/posts/[id]?id=5&sort=asc") true)
  = Returned (Pair "/posts/[id]?id=5&sort=asc" "/posts/5?sort=asc").
Proof.
  refine (proj1 (proj2
    (as_omits_consumed_params TestPlatform.env postsRouter
       (UrlString "/posts/[id]?id=5&sort=asc")
       (TestPlatform.mkLocation "http://n" "/posts/[id]" "" "")
       (TestPlatform.mkLocation "http://n" "/posts/[id]" "?id=5&sort=asc" "")
       "/posts/5" ["id"]
       eq_refl eq_refl eq_refl eq_refl eq_refl _)) _);
    discriminate.
Defined.

(** C10: when the interpolation succeeds, the 'as' string is the
    serialization of the interpolated pathname, the hash of the resolved URL
    and the query without the consumed parameters. *)
Theorem interpolated_as_keeps_hash (E : Env) (router : NextRouter)
  (href : Url) (base finalUrl : URL E) (result : string)
  (params : list string) :
  isLocalURL E (urlAsStringOf E href) = true ->
  outcome (constructBase E router (urlAsStringOf E href)) = Returned base ->
  outcome (constructFinalUrl E (urlAsStringOf E href) base)
  = Returned finalUrl ->
  isDynamicRoute E (URL_pathname E finalUrl) = true ->
  interpolateAs E (URL_pathname E finalUrl) (URL_pathname E finalUrl)
    (searchParamsToUrlQuery E (URL_searchParams E finalUrl))
  = (result, params) ->
  result <> "" ->
  exists h a,
    outcome (resolveHref E router href true) = Returned (Pair h a) /\
    interpolatedAsOf E finalUrl true
    = formatWithValidation E
        {| uo_pathname := Some result;
           uo_hash := Some (URL_hash E finalUrl);
           uo_query :=
             Some (omit (searchParamsToUrlQuery E
                           (URL_searchParams E finalUrl)) params) |} /\
    a = js_or (interpolatedAsOf E finalUrl true) h /\
    (interpolatedAsOf E finalUrl true <> "" ->
     a = interpolatedAsOf E finalUrl true).
Proof.
  intros Hlocal Hbase Hfinal Hdyn Hinterp Hresult.
  exists (resolvedHrefOf E finalUrl base).
  exists (js_or (interpolatedAsOf E finalUrl true)
                (resolvedHrefOf E finalUrl base)).
  split.
  - exact (resolveHref_resolved E router href true base finalUrl
             Hlocal Hbase Hfinal).
  - split; [now apply interpolatedAsOf_success |].
    split; [reflexivity | apply js_or_nonempty].
Qed.

Lemma interpolated_as_keeps_hash_witness :
  URL_hash TestPlatform.env
    (TestPlatform.mkLocation "http://n" "/posts/[id]" "?id=5&sort=asc" "#top")
  = "#top" /\
  outcome (resolveHref TestPlatform.env postsRouter
             (UrlString "/posts/[id]?id=5&sort=asc#top") true)
  = Returned (Pair "/posts/[id]?id=5&sort=asc#top" "/posts/5?sort=asc#top").
Proof.
  split; [reflexivity |].
  destruct (interpolated_as_keeps_hash TestPlatform.env postsRouter
              (UrlString "/posts/[id]?id=5&sort=asc#top")
              (TestPlatform.mkLocation "http://n" "/posts/[id]" "" "")
              (TestPlatform.mkLocation "http://n" "/posts/[id]"
                 "?id=5&sort=asc" "#top")
              "/posts/5" ["id"]
              eq_refl eq_refl eq_refl eq_refl eq_refl
              ltac:(discriminate))
    as (h & a & Hres & _).
  pose proof Hres as Hvalue. vm_compute in Hvalue.
  injection Hvalue as Hh Ha. subst h a. exact Hres.
Defined.

(** C3, as stated, fails: the interpolation does not wait for query
    parameters.  [/docs/[[...slug]]] resolves to a URL without any query
    parameter, and yet the 'as' value is the interpolated [/docs], not the
    href. *)
Lemma interpolation_without_query_parameters :
  exists base finalUrl,
    outcome (constructBase TestPlatform.env postsRouter "/docs/[[...slug]]")
    = Returned base /\
    outcome (constructFinalUrl TestPlatform.env "/docs/[[...slug]]" base)
    = Returned finalUrl /\
    searchParamsToUrlQuery TestPlatform.env
      (URL_searchParams TestPlatform.env finalUrl) = [] /\
    outcome (resolveHref TestPlatform.env postsRouter
               (UrlString "/docs/[[...slug]]") true)
    = Returned (Pair "/docs/[[...slug]]" "/docs") /\
    "/docs" <> "/docs/[[...slug]]".
Proof.
  exists (TestPlatform.mkLocation "http://n" "/posts/[id]" "" "").
  exists (TestPlatform.mkLocation "http://n" "/docs/[[...slug]]" "" "").
  repeat split; try reflexivity. discriminate.
Qed.

(** C3, amended: the interpolation is attempted exactly when [resolveAs]
    is true and the normalized path of the resolved URL is a dynamic route
    (the test of [finalUrl.searchParams] holds for every URL).  Then the
    'as' value comes from [interpolateAs], whatever the query; with a path
    that is not dynamic the 'as' value is the href, and without [resolveAs]
    the href alone is returned. *)
Theorem interpolation_guard (E : Env) (router : NextRouter) (href : Url)
  (base finalUrl : URL E) :
  isLocalURL E (urlAsStringOf E href) = true ->
  outcome (constructBase E router (urlAsStringOf E href)) = Returned base ->
  outcome (constructFinalUrl E (urlAsStringOf E href) base)
  = Returned finalUrl ->
  let resolvedHref := resolvedHrefOf E finalUrl base in
  let query := searchParamsToUrlQuery E (URL_searchParams E finalUrl) in
  let interpolation :=
    interpolateAs E (URL_pathname E finalUrl) (URL_pathname E finalUrl) query
  in
  (isDynamicRoute E (URL_pathname E finalUrl) = true ->
   outcome (resolveHref E router href true)
   = Returned
       (Pair resolvedHref
          (js_or
             (if truthy (fst interpolation)
              then formatWithValidation E
                     {| uo_pathname := Some (fst interpolation);
                        uo_hash := Some (URL_hash E finalUrl);
                        uo_query := Some (omit query (snd interpolation)) |}
              else "")
             resolvedHref))) /\
  (isDynamicRoute E (URL_pathname E finalUrl) = false ->
   outcome (resolveHref E router href true)
   = Returned (Pair resolvedHref resolvedHref)) /\
  outcome (resolveHref E router href false) = Returned (Single resolvedHref).
Proof.
  intros Hlocal Hbase Hfinal. cbv zeta.
  assert (Htrue := resolveHref_resolved E router href true base finalUrl
                     Hlocal Hbase Hfinal).
  assert (Hfalse := resolveHref_resolved E router href false base finalUrl
                      Hlocal Hbase Hfinal).
  simpl in Htrue, Hfalse.
  split; [| split; [| exact Hfalse]].
  - intros Hdyn. rewrite Htrue. unfold interpolatedAsOf. rewrite Hdyn. simpl.
    destruct (interpolateAs E (URL_pathname E finalUrl)
                (URL_pathname E finalUrl)
                (searchParamsToUrlQuery E (URL_searchParams E finalUrl)))
      as [result params].
    reflexivity.
  - intros Hstatic. rewrite Htrue. unfold interpolatedAsOf. rewrite Hstatic.
    reflexivity.
Qed.

Lemma interpolation_guard_witness :
  isDynamicRoute TestPlatform.env "/docs/[[...slug]]" = true /\
  outcome (resolveHref TestPlatform.env postsRouter
             (UrlString "/docs/[[...slug]]") true)
  = Returned (Pair "/docs/[[...slug]]" "/docs") /\
  isDynamicRoute TestPlatform.env "/about" = false /\
  outcome (resolveHref TestPlatform.env postsRouter
             (UrlString "/about?id=5") true)
  = Returned (Pair "/about?id=5" "/about?id=5").
Proof.
  split; [reflexivity |]. split.
  - exact (proj1
      (interpolation_guard TestPlatform.env postsRouter
         (UrlString "/docs/[[...slug]]")
         (TestPlatform.mkLocation "http://n" "/posts/[id]" "" "")
         (TestPlatform.mkLocation "http://n" "/docs/[[...slug]]" "" "")
         eq_refl eq_refl eq_refl) eq_refl).
  - split; [reflexivity |].
    exact (proj1 (proj2
      (interpolation_guard TestPlatform.env postsRouter
         (UrlString "/about?id=5")
         (TestPlatform.mkLocation "http://n" "/posts/[id]" "" "")
         (TestPlatform.mkLocation "http://n" "/about" "?id=5" "")
         eq_refl eq_refl eq_refl)) eq_refl).
Defined.

(** C9: the code departs from the claim.  The check for repeated slashes
    reads the string as it is given, and the URL parser then drops the tab
    of [/a/<TAB>/b]: the first call returns [/a//b], a href that holds the
    repeated slashes the function sets out to remove.  That string is
    local, so the second call repairs it, with a diagnostic, and returns
    [/a/b] instead of returning it unchanged. *)
Lemma resolveHref_not_idempotent :
  needsRepair tabbedTarget = false /\
  resolveHref TestPlatform.env rootRouter (UrlString tabbedTarget) false
  = ([], Returned (Single "/a//b")) /\
  isLocalURL TestPlatform.env "/a//b" = true /\
  hasRepeatedSlashes "/a//b" = true /\
  resolveHref TestPlatform.env rootRouter (UrlString "/a//b") false
  = ([invalidHrefMessage "/a//b"], Returned (Single "/a/b")) /\
  outcome (resolveHref TestPlatform.env rootRouter (UrlString "/a//b") false)
  <> Returned (Single "/a//b").
Proof.
  repeat split; try reflexivity. vm_compute. discriminate.
Qed.

(* ================================================================== *)
(** ** Further properties of [resolveHref] *)

Lemma span_alpha_letters (l r : string) (c : ascii) :
  all_alpha l = true -> is_alpha c = false ->
  span_alpha (l ++ String c r) = (l, String c r).
Proof.
  intros Hl Hc. induction l as [| d l IH]; simpl.
  - now rewrite Hc.
  - simpl in Hl. apply andb_true_iff in Hl. destruct Hl as [Hd Hl].
    rewrite Hd, (IH Hl). reflexivity.
Qed.

Lemma span_alpha_all_alpha (s : string) : all_alpha (fst (span_alpha s)) = true.
Proof.
  induction s as [| c s IH]; simpl; [reflexivity |].
  destruct (is_alpha c) eqn:Hc; [| reflexivity].
  destruct (span_alpha s) as [letters rest]. simpl in *. now rewrite Hc.
Qed.

(** X3: the scheme prefix is recognised exactly on the strings made of one
    or more letters, [://] and anything: the match is then the letters
    with [://]. *)
Theorem urlProtoMatch_iff (s m : string) :
  urlProtoMatch s = Some m <->
  exists letters rest,
    letters <> "" /\ all_alpha letters = true /\
    m = letters ++ "://" /\ s = m ++ rest.
Proof.
  split.
  - unfold urlProtoMatch. intros Hm.
    pose proof (span_alpha_append s) as Hs.
    pose proof (span_alpha_all_alpha s) as Ha.
    destruct (span_alpha s) as [letters rest]. simpl in Hs, Ha.
    destruct (negb (letters =? "") && prefix "://" rest) eqn:Hc;
      [| discriminate].
    injection Hm as <-.
    apply andb_true_iff in Hc. destruct Hc as [Hne Hp].
    apply prefix_append in Hp.
    exists letters, (slice (String.length "://") rest).
    split.
    { intros ->. discriminate. }
    split; [exact Ha |]. split; [reflexivity |].
    rewrite append_assoc, Hp. now symmetry.
  - intros (letters & rest & Hne & Ha & -> & ->).
    unfold urlProtoMatch. rewrite append_assoc.
    change ("://" ++ rest) with (String ":" ("//" ++ rest)).
    rewrite (span_alpha_letters letters ("//" ++ rest) ":" Ha eq_refl).
    destruct (String.eqb_spec letters "") as [-> | _]; [contradiction |].
    simpl. destruct rest; reflexivity.
Qed.

Lemma urlProtoMatch_iff_witness :
  urlProtoMatch "https://example.com/x" = Some "https://" /\
  (urlProtoMatch "web+app://x" = Some "web+app://" -> False).
Proof.
  split.
  - apply (proj2 (urlProtoMatch_iff "https://example.com/x" "https://")).
    exists "https", "example.com/x". repeat split. discriminate.
  - intros H. discriminate H.
Defined.

(** X5: the slashes of the scheme prefix are not scanned: a string made of
    letters, [://] and a rest is repaired exactly when the rest, up to its
    first [?], holds [//] or a backslash. *)
Theorem scheme_slashes_not_scanned (letters rest : string) :
  letters <> "" -> all_alpha letters = true ->
  urlAsStringNoProto (letters ++ "://" ++ rest) = rest /\
  needsRepair (letters ++ "://" ++ rest)
  = hasRepeatedSlashes (nth 0 (split "?" rest) "").
Proof.
  intros Hne Ha.
  assert (Hm : urlProtoMatch (letters ++ "://" ++ rest)
               = Some (letters ++ "://")).
  { apply urlProtoMatch_iff. exists letters, rest.
    repeat split; auto. now rewrite append_assoc. }
  assert (Hrest : urlAsStringNoProto (letters ++ "://" ++ rest) = rest).
  { unfold urlAsStringNoProto. rewrite Hm.
    rewrite <- (append_assoc letters "://" rest). apply slice_append. }
  split; [exact Hrest |].
  unfold needsRepair, urlParts. rewrite Hrest. now rewrite js_or_empty_r.
Qed.

Lemma scheme_slashes_not_scanned_witness :
  needsRepair "https://example.com/x?next=//y" = false /\
  needsRepair "https://example.com//x" = true.
Proof.
  assert (Hne : "https" <> "") by discriminate.
  split.
  - exact (proj2 (scheme_slashes_not_scanned "https"
                    "example.com/x?next=//y" Hne eq_refl)).
  - exact (proj2 (scheme_slashes_not_scanned "https" "example.com//x"
                    Hne eq_refl)).
Defined.

Lemma hasRepeatedSlashes_backslash (a b : string) :
  hasRepeatedSlashes (a ++ String "\" b) = true.
Proof.
  induction a as [| c a IH]; [reflexivity |].
  change (String c a ++ String "\" b) with (String c (a ++ String "\" b)).
  simpl. destruct (Ascii.eqb c "\"); [reflexivity |].
  destruct (Ascii.eqb c "/"); [| exact IH].
  destruct (a ++ String "\" b) as [| d t] eqn:Ht.
  - destruct a; discriminate.
  - destruct (Ascii.eqb d "/"); [reflexivity | exact IH].
Qed.

Lemma hasRepeatedSlashes_slashes (a b : string) :
  hasRepeatedSlashes (a ++ String "/" (String "/" b)) = true.
Proof.
  induction a as [| c a IH]; [reflexivity |].
  change (String c a ++ String "/" (String "/" b))
    with (String c (a ++ String "/" (String "/" b))).
  simpl. destruct (Ascii.eqb c "\"); [reflexivity |].
  destruct (Ascii.eqb c "/"); [| exact IH].
  destruct (a ++ String "/" (String "/" b)) as [| d t] eqn:Ht.
  - destruct a; discriminate.
  - destruct (Ascii.eqb d "/"); [reflexivity | exact IH].
Qed.

(** X4: the scan succeeds exactly on the strings that contain two
    consecutive forward slashes or a backslash. *)
Theorem hasRepeatedSlashes_iff (part : string) :
  hasRepeatedSlashes part = true <->
  exists a b, part = a ++ "//" ++ b \/ part = a ++ "\" ++ b.
Proof.
  split.
  - induction part as [| c rest IH]; simpl; [discriminate |].
    destruct (Ascii.eqb_spec c "\") as [-> | Hback].
    + intros _. exists "", rest. right. reflexivity.
    + destruct (Ascii.eqb_spec c "/") as [-> | Hslash].
      * destruct rest as [| d t]; [discriminate |].
        destruct (Ascii.eqb_spec d "/") as [-> | Hd].
        -- intros _. exists "", t. left. reflexivity.
        -- intros H. destruct (IH H) as (a & b & [Hab | Hab]);
             rewrite Hab.
           ++ exists (String "/" a), b. left. reflexivity.
           ++ exists (String "/" a), b. right. reflexivity.
      * intros H. destruct (IH H) as (a & b & [Hab | Hab]); rewrite Hab.
        -- exists (String c a), b. left. reflexivity.
        -- exists (String c a), b. right. reflexivity.
  - intros (a & b & [-> | ->]).
    + apply hasRepeatedSlashes_slashes.
    + apply hasRepeatedSlashes_backslash.
Qed.

(** X1: the result has the shape of the overload that was called: a bare
    string without [resolveAs], an array of one or two strings with it. *)
Theorem result_shape (E : Env) (router : NextRouter) (href : Url)
  (resolveAs : bool) (v : Resolved) :
  outcome (resolveHref E router href resolveAs) = Returned v ->
  if resolveAs
  then (exists s, v = One s) \/ (exists h a, v = Pair h a)
  else exists s, v = Single s.
Proof.
  rewrite resolveHref_outcome. cbv zeta.
  destruct (isLocalURL E (urlAsStringOf E href)); simpl.
  - destruct (outcome (constructBase E router (urlAsStringOf E href)))
      as [base |]; [| discriminate].
    rewrite resolveAgainst_eq. unfold outcome at 1. simpl.
    destruct (outcome (constructFinalUrl E (urlAsStringOf E href) base));
      destruct resolveAs; simpl; intros H; injection H as <-; eauto.
  - destruct resolveAs; simpl; intros H; injection H as <-; eauto.
Qed.

Lemma result_shape_witness :
  (exists s, Pair "/posts/[id]?id=5" "/posts/5" = One s) \/
  (exists h a, Pair "/posts/[id]?id=5" "/posts/5" = Pair h a).
Proof.
  exact (result_shape TestPlatform.env postsRouter
           (UrlString "/posts/[id]?id=5") true
           (Pair "/posts/[id]?id=5" "/posts/5") eq_refl).
Defined.

(** X2: with [resolveAs], the array has two elements exactly when
    [urlAsString] is local and both URLs were constructed; it has one
    element exactly when [urlAsString] is not local or the base was
    obtained and the final URL was not. *)
Theorem pair_iff_resolved (E : Env) (router : NextRouter) (href : Url) :
  ((exists h a,
      outcome (resolveHref E router href true) = Returned (Pair h a)) <->
   isLocalURL E (urlAsStringOf E href) = true /\
   exists base finalUrl,
     outcome (constructBase E router (urlAsStringOf E href)) = Returned base /\
     outcome (constructFinalUrl E (urlAsStringOf E href) base)
     = Returned finalUrl) /\
  ((exists s, outcome (resolveHref E router href true) = Returned (One s)) <->
   isLocalURL E (urlAsStringOf E href) = false \/
   exists base,
     outcome (constructBase E router (urlAsStringOf E href)) = Returned base /\
     outcome (constructFinalUrl E (urlAsStringOf E href) base) = Thrown).
Proof.
  split; split.
  - intros (h & a & Hpair). apply resolveHref_pair_inv in Hpair.
    destruct Hpair as (_ & Hlocal & base & finalUrl & Hb & Hf & _).
    split; [exact Hlocal |]. now exists base, finalUrl.
  - intros (Hlocal & base & finalUrl & Hb & Hf).
    rewrite (resolveHref_resolved E router href true base finalUrl
               Hlocal Hb Hf).
    eauto.
  - intros (s & Hone). rewrite resolveHref_outcome in Hone. cbv zeta in Hone.
    destruct (isLocalURL E (urlAsStringOf E href)); [| now left].
    simpl in Hone.
    destruct (outcome (constructBase E router (urlAsStringOf E href)))
      as [base |]; [| discriminate].
    rewrite resolveAgainst_eq in Hone. unfold outcome at 1 in Hone.
    simpl in Hone.
    destruct (outcome (constructFinalUrl E (urlAsStringOf E href) base))
      eqn:Hf; [discriminate |].
    right. now exists base.
  - intros [Hforeign | (base & Hb & Hf)].
    + rewrite resolveHref_outcome. cbv zeta. rewrite Hforeign. simpl. eauto.
    + rewrite resolveHref_outcome. cbv zeta.
      destruct (isLocalURL E (urlAsStringOf E href)); simpl; [| eauto].
      rewrite Hb, resolveAgainst_eq. unfold outcome at 1. simpl.
      rewrite Hf. simpl. eauto.
Qed.

(** X6: of the router, a target that starts with [#] reads [asPath] only,
    any other target [pathname] only. *)
Theorem router_field_read (E : Env) (router router' : NextRouter)
  (href : Url) (resolveAs : bool) :
  (if startsWith (urlAsStringOf E href) "#"
   then asPath router = asPath router'
   else pathname router = pathname router') ->
  resolveHref E router href resolveAs = resolveHref E router' href resolveAs.
Proof.
  intros Hsame.
  assert (Hbase : constructBase E router (urlAsStringOf E href)
                  = constructBase E router' (urlAsStringOf E href)).
  { rewrite !constructBase_eq. unfold basePath.
    destruct (startsWith (urlAsStringOf E href) "#"); now rewrite Hsame. }
  assert (Hd : diagnostics (resolveHref E router href resolveAs)
               = diagnostics (resolveHref E router' href resolveAs))
    by now rewrite !resolveHref_diagnostics.
  assert (Ho : outcome (resolveHref E router href resolveAs)
               = outcome (resolveHref E router' href resolveAs)).
  { rewrite !resolveHref_outcome. cbv zeta. now rewrite Hbase. }
  unfold diagnostics in Hd. unfold outcome in Ho.
  destruct (resolveHref E router href resolveAs),
           (resolveHref E router' href resolveAs).
  simpl in *. now subst.
Qed.

Lemma router_field_read_witness :
  resolveHref TestPlatform.env (mkRouter "/a/[slug]" "/a/b?x=1")
    (UrlString "#section") true
  = resolveHref TestPlatform.env (mkRouter "/other" "/a/b?x=1")
      (UrlString "#section") true /\
  resolveHref TestPlatform.env (mkRouter "/a/[slug]" "/a/b?x=1")
    (UrlString "?y=2") false
  = resolveHref TestPlatform.env (mkRouter "/a/[slug]" "/elsewhere")
      (UrlString "?y=2") false.
Proof.
  split.
  - exact (router_field_read TestPlatform.env (mkRouter "/a/[slug]" "/a/b?x=1")
             (mkRouter "/other" "/a/b?x=1") (UrlString "#section") true
             eq_refl).
  - exact (router_field_read TestPlatform.env (mkRouter "/a/[slug]" "/a/b?x=1")
             (mkRouter "/a/[slug]" "/elsewhere") (UrlString "?y=2") false
             eq_refl).
Defined.

(** X7: the diagnostics of a call depend on the serialized target alone,
    not on the router, on [resolveAs] or on the locality of the target;
    there is at most one, and it quotes the target as it was before the
    repair. *)
Theorem diagnostics_depend_on_target (E : Env) (router router' : NextRouter)
  (href : Url) (resolveAs resolveAs' : bool) :
  diagnostics (resolveHref E router href resolveAs)
  = diagnostics (resolveHref E router' href resolveAs') /\
  List.length (diagnostics (resolveHref E router href resolveAs)) <= 1 /\
  (forall message,
     In message (diagnostics (resolveHref E router href resolveAs)) ->
     message = invalidHrefMessage (hrefToString E href)).
Proof.
  rewrite !resolveHref_diagnostics.
  split; [reflexivity |].
  destruct (needsRepair (hrefToString E href)); simpl; split; auto.
  - intros message [<- | []]. reflexivity.
  - intros message [].
Qed.

(** X8: absolute URLs are preserved.  When the resolved URL has another
    origin than the base, the href is its whole serialization; when it has
    the origin of the base, the href is what follows the origin in the
    serialization. *)
Theorem href_keeps_foreign_origin (E : Env) (router : NextRouter)
  (href : Url) (base finalUrl : URL E) :
  isLocalURL E (urlAsStringOf E href) = true ->
  outcome (constructBase E router (urlAsStringOf E href)) = Returned base ->
  outcome (constructFinalUrl E (urlAsStringOf E href) base)
  = Returned finalUrl ->
  (URL_origin E finalUrl <> URL_origin E base ->
   outcome (resolveHref E router href false)
   = Returned (Single (URL_href E finalUrl))) /\
  (URL_origin E finalUrl = URL_origin E base ->
   forall rest,
     URL_href E finalUrl = URL_origin E finalUrl ++ rest ->
     outcome (resolveHref E router href false) = Returned (Single rest)).
Proof.
  intros Hlocal Hbase Hfinal.
  rewrite (resolveHref_resolved E router href false base finalUrl
             Hlocal Hbase Hfinal).
  unfold resolvedHrefOf. split.
  - intros Hdiff.
    destruct (String.eqb_spec (URL_origin E finalUrl) (URL_origin E base));
      [contradiction | reflexivity].
  - intros Hsame rest Hrest.
    rewrite Hsame, String.eqb_refl, <- Hsame, Hrest, slice_append.
    reflexivity.
Qed.

Lemma href_keeps_foreign_origin_witness :
  outcome (resolveHref TestPlatform.env postsRouter
             (UrlString ("/" ++ TestPlatform.TAB ++ "/cdn.example.com/lib.js"))
             false)
  = Returned (Single "http://cdn.example.com/lib.js").
Proof.
  refine (proj1
    (href_keeps_foreign_origin TestPlatform.env postsRouter
       (UrlString ("/" ++ TestPlatform.TAB ++ "/cdn.example.com/lib.js"))
       (TestPlatform.mkLocation "http://n" "/posts/[id]" "" "")
       (TestPlatform.mkLocation "http://cdn.example.com" "/lib.js" "" "")
       eq_refl eq_refl eq_refl) _).
  simpl. discriminate.
Defined.

(** X9: without [resolveAs] the dynamic-route helpers have no part in the
    result: it is the same whatever [isDynamicRoute] and [interpolateAs]
    are. *)
Theorem no_interpolation_without_resolveAs (E : Env) (router : NextRouter)
  (href : Url) (dynamic : string -> bool)
  (interpolate : string -> string -> ParsedUrlQuery -> string * list string) :
  resolveHref (with_interpolation E dynamic interpolate) router href false
  = resolveHref E router href false.
Proof.
  assert (Hd : diagnostics
                 (resolveHref (with_interpolation E dynamic interpolate)
                    router href false)
               = diagnostics (resolveHref E router href false))
    by (rewrite !resolveHref_diagnostics; reflexivity).
  assert (Ho : outcome
                 (resolveHref (with_interpolation E dynamic interpolate)
                    router href false)
               = outcome (resolveHref E router href false)).
  { rewrite !resolveHref_outcome. cbv zeta.
    change (urlAsStringOf (with_interpolation E dynamic interpolate) href)
      with (urlAsStringOf E href).
    change (isLocalURL (with_interpolation E dynamic interpolate))
      with (isLocalURL E).
    destruct (isLocalURL E (urlAsStringOf E href)); simpl; [| reflexivity].
    rewrite !constructBase_eq. unfold outcome at 1 3. simpl.
    change (new_URL (with_interpolation E dynamic interpolate))
      with (new_URL E).
    destruct (match new_URL E (basePath router (urlAsStringOf E href))
                      (BaseString "http://n") with
              | Some b => Returned b
              | None => _
              end) as [base |]; [| reflexivity].
    rewrite !resolveAgainst_eq, !constructFinalUrl_eq. reflexivity. }
  unfold diagnostics in Hd. unfold outcome in Ho.
  destruct (resolveHref (with_interpolation E dynamic interpolate)
              router href false),
           (resolveHref E router href false).
  simpl in *. now subst.
Qed.

(* ================================================================== *)
(** ** The options handed to ESLint *)

Lemma logical_or_null (v : NextLint.JsValue) :
  NextLint.logical_or v NextLint.JNull = NextLint.JNull \/
  (NextLint.logical_or v NextLint.JNull = v /\ NextLint.Boolean v = true).
Proof.
  unfold NextLint.logical_or. destruct (NextLint.Boolean v) eqn:Hv; auto.
Qed.

(** X10: no option is ever [undefined], whatever the arguments hold. *)
Theorem eslintOptions_populated (args : NextLint.Args)
  (defaultCacheLocation : string) :
  Forall (fun v => v <> NextLint.JUndefined)
    (NextLint.optionValues
       (NextLint.eslintOptions args defaultCacheLocation)).
Proof.
  unfold NextLint.optionValues, NextLint.eslintOptions,
    NextLint.logical_or, NextLint.nullish. simpl.
  repeat (apply Forall_cons;
          [repeat match goal with
                  | |- context [args ?k] => destruct (args k)
                  end;
           simpl;
           repeat match goal with
                  | |- context [if ?b then _ else _] => destruct b
                  end;
           discriminate |]).
  apply Forall_nil.
Qed.

(** X11: a flag given as the empty string (or any other falsy value) is
    treated as absent by the options read with [||]: each of them is
    [null] or the truthy value of its flag, the cache strategy is always
    truthy, and so is the cache location when the default location is not
    empty. *)
Theorem eslintOptions_no_falsy_path (args : NextLint.Args)
  (defaultCacheLocation : string) :
  let o := NextLint.eslintOptions args defaultCacheLocation in
  (forall v k,
     In (v, k)
        [(NextLint.overrideConfigFile o, "--config");
         (NextLint.resolvePluginsRelativeTo o, "--resolve-plugins-relative-to");
         (NextLint.ignorePath o, "--ignore-path");
         (NextLint.reportUnusedDisableDirectives o,
          "--report-unused-disable-directives")] ->
     (NextLint.Boolean (args k) = false /\ v = NextLint.JNull) \/
     (NextLint.Boolean (args k) = true /\ v = args k)) /\
  NextLint.Boolean (NextLint.cacheStrategy o) = true /\
  (defaultCacheLocation <> "" ->
   NextLint.Boolean (NextLint.cacheLocation o) = true).
Proof.
  cbv zeta. split; [| split].
  - intros v k Hin. simpl in Hin.
    repeat (destruct Hin as [Heq | Hin];
            [injection Heq as <- <-; unfold NextLint.logical_or;
             destruct (NextLint.Boolean (args _)) eqn:Hb; auto |]).
    contradiction.
  - simpl. unfold NextLint.logical_or.
    destruct (NextLint.Boolean (args "--cache-strategy")) eqn:Hb;
      [exact Hb | reflexivity].
  - intros Hd. simpl. unfold NextLint.logical_or.
    destruct (NextLint.Boolean (args "--cache-location")) eqn:Hb;
      [exact Hb |].
    simpl. now apply truthy_true.
Qed.

Lemma eslintOptions_no_falsy_path_witness :
  NextLint.overrideConfigFile
    (NextLint.eslintOptions
       (fun k => if String.eqb k "--config" then NextLint.JString ""
                 else NextLint.JUndefined)
       ".next/cache/eslint/")
  = NextLint.JNull /\
  NextLint.Boolean
    (NextLint.cacheLocation
       (NextLint.eslintOptions (fun _ => NextLint.JString "")
          ".next/cache/eslint/")) = true.
Proof.
  split; [reflexivity |].
  refine (proj2 (proj2
    (eslintOptions_no_falsy_path (fun _ => NextLint.JString "")
       ".next/cache/eslint/")) _).
  discriminate.
Defined.

(** X12: the options read with [??] keep every value of their flag that
    is neither [undefined] nor [null], falsy ones included, and fall back
    to their default only for those two. *)
Theorem eslintOptions_nullish_kept (args : NextLint.Args)
  (defaultCacheLocation : string) :
  let o := NextLint.eslintOptions args defaultCacheLocation in
  forall v k default,
    In (v, k, default)
       [(NextLint.extensions o, "--ext",
         NextLint.JArray
           [".js"; ".mjs"; ".cjs"; ".jsx"; ".ts"; ".mts"; ".cts"; ".tsx"]);
        (NextLint.rulePaths o, "--rulesdir", NextLint.JArray []);
        (NextLint.fix_ o, "--fix", NextLint.JBool false);
        (NextLint.fixTypes o, "--fix-type", NextLint.JNull)] ->
    (args k <> NextLint.JUndefined -> args k <> NextLint.JNull ->
     v = args k) /\
    (args k = NextLint.JUndefined \/ args k = NextLint.JNull ->
     v = default).
Proof.
  cbv zeta. intros v k default Hin. simpl in Hin.
  repeat (destruct Hin as [Heq | Hin];
          [injection Heq as <- <- <-; unfold NextLint.nullish;
           split;
           [intros Hu Hn; destruct (args _); congruence
           | intros [-> | ->]; reflexivity] |]).
  contradiction.
Qed.

Lemma eslintOptions_nullish_kept_witness :
  NextLint.extensions
    (NextLint.eslintOptions
       (fun k => if String.eqb k "--ext" then NextLint.JString ""
                 else NextLint.JUndefined) "d")
  = NextLint.JString "".
Proof.
  refine (proj1
    (eslintOptions_nullish_kept
       (fun k => if String.eqb k "--ext" then NextLint.JString ""
                 else NextLint.JUndefined) "d"
       _ "--ext" _ (or_introl eq_refl)) _ _); discriminate.
Defined.

(** X13: the options depend on the fourteen flags of [eslintFlags] only,
    and with none of them given they are the defaults. *)
Theorem eslintOptions_flags_only (args args' : NextLint.Args)
  (defaultCacheLocation : string) :
  (forall k, In k NextLint.eslintFlags -> args k = args' k) ->
  NextLint.eslintOptions args defaultCacheLocation
  = NextLint.eslintOptions args' defaultCacheLocation /\
  ((forall k, In k NextLint.eslintFlags -> args' k = NextLint.JUndefined) ->
   NextLint.eslintOptions args defaultCacheLocation
   = NextLint.mkESLintOptions
       NextLint.JNull
       (NextLint.JArray
          [".js"; ".mjs"; ".cjs"; ".jsx"; ".ts"; ".mts"; ".cts"; ".tsx"])
       NextLint.JNull (NextLint.JArray []) (NextLint.JBool false)
       NextLint.JNull NextLint.JNull (NextLint.JBool true)
       (NextLint.JBool true) NextLint.JNull (NextLint.JBool true)
       (NextLint.JString defaultCacheLocation) (NextLint.JString "metadata")
       (NextLint.JBool false)).
Proof.
  intros Hsame.
  assert (Heq : NextLint.eslintOptions args defaultCacheLocation
                = NextLint.eslintOptions args' defaultCacheLocation).
  { unfold NextLint.eslintOptions.
    rewrite !Hsame by (simpl; tauto). reflexivity. }
  split; [exact Heq |].
  intros Hnone. rewrite Heq. unfold NextLint.eslintOptions.
  rewrite !Hnone by (simpl; tauto). reflexivity.
Qed.

Lemma eslintOptions_flags_only_witness :
  NextLint.eslintOptions
    (fun k => if String.eqb k "--quiet" then NextLint.JBool true
              else NextLint.JUndefined) "d"
  = NextLint.eslintOptions (fun _ => NextLint.JUndefined) "d".
Proof.
  refine (proj1
    (eslintOptions_flags_only
       (fun k => if String.eqb k "--quiet" then NextLint.JBool true
                 else NextLint.JUndefined)
       (fun _ => NextLint.JUndefined) "d" _)).
  intros k Hin. simpl in Hin.
  repeat (destruct Hin as [<- | Hin]; [reflexivity |]). contradiction.
Defined.

(* ================================================================== *)
(** ** The paths to lint *)

Section PathsToLintFacts.

Variable existsSync : string -> bool.
Variable join : string -> string -> string.
Variable DEFAULT_DIRS : list string.
Variable DEFAULT_DIRS_WITH_APP : list string.

Lemma fold_keepExisting (baseDir : string) (entries acc : list string) :
  fold_left (NextLint.keepExisting existsSync join baseDir) entries acc
  = (acc ++ existingUnder existsSync join baseDir entries)%list.
Proof.
  unfold existingUnder.
  revert acc. induction entries as [| d entries IH]; intros acc; simpl.
  - now rewrite app_nil_r.
  - rewrite IH. unfold NextLint.keepExisting.
    destruct (existsSync (join baseDir d)); simpl; [| reflexivity].
    now rewrite <- app_assoc.
Qed.

Lemma pathsToLint_eq (baseDir : string) (args : NextLint.LintArgs)
  (nextConfig : NextLint.NextConfig) :
  NextLint.pathsToLint existsSync join DEFAULT_DIRS DEFAULT_DIRS_WITH_APP
    baseDir args nextConfig
  = existingUnder existsSync join baseDir
      (match NextLint.filesToLint args nextConfig with
       | [] => NextLint.directoriesToLint DEFAULT_DIRS DEFAULT_DIRS_WITH_APP
                 nextConfig
       | _ :: _ => NextLint.filesToLint args nextConfig
       end).
Proof.
  unfold NextLint.pathsToLint. rewrite fold_keepExisting. simpl.
  destruct (NextLint.filesToLint args nextConfig); reflexivity.
Qed.

Lemma existingUnder_none (baseDir : string) (entries : list string) :
  (forall d, In d entries -> existsSync (join baseDir d) = false) ->
  existingUnder existsSync join baseDir entries = [].
Proof.
  unfold existingUnder.
  induction entries as [| d entries IH]; intros Hmissing; [reflexivity |].
  simpl. rewrite (Hmissing d) by (left; reflexivity).
  apply IH. intros d' Hd'. apply Hmissing. right. exact Hd'.
Qed.

(** X14: when a directory or a file is asked for, the paths to lint are
    the existing ones among the directories, then the existing ones among
    the files, each joined to the base directory and in the order given;
    the directories are those of [--dir] when the flag is given and those
    of the configuration otherwise.  The default directories are not
    used, even when nothing that was asked for exists. *)
Theorem pathsToLint_requested (baseDir : string) (args : NextLint.LintArgs)
  (nextConfig : NextLint.NextConfig) :
  NextLint.filesToLint args nextConfig <> [] ->
  NextLint.pathsToLint existsSync join DEFAULT_DIRS DEFAULT_DIRS_WITH_APP
    baseDir args nextConfig
  = (existingUnder existsSync join baseDir
       (match NextLint.arg_dir args with
        | Some l => l
        | None => match NextLint.eslint_dirs nextConfig with
                  | Some l => l
                  | None => []
                  end
        end)
     ++ existingUnder existsSync join baseDir
          (match NextLint.arg_file args with
           | Some l => l
           | None => []
           end))%list /\
  ((forall d, In d (NextLint.filesToLint args nextConfig) ->
              existsSync (join baseDir d) = false) ->
   NextLint.pathsToLint existsSync join DEFAULT_DIRS DEFAULT_DIRS_WITH_APP
     baseDir args nextConfig = []).
Proof.
  intros Hrequested. rewrite pathsToLint_eq.
  destruct (NextLint.filesToLint args nextConfig) as [| x l] eqn:Hf;
    [contradiction |].
  rewrite <- Hf. split.
  - unfold existingUnder, NextLint.filesToLint, NextLint.dirs, NextLint.files.
    rewrite map_app, filter_app.
    destruct (NextLint.arg_dir args); reflexivity.
  - apply existingUnder_none.
Qed.

(** X15: when neither a directory nor a file is asked for, the paths to
    lint are the existing default directories, those with [app] exactly
    when [experimental.appDir] is set. *)
Theorem pathsToLint_defaults (baseDir : string) (args : NextLint.LintArgs)
  (nextConfig : NextLint.NextConfig) :
  NextLint.filesToLint args nextConfig = [] ->
  NextLint.pathsToLint existsSync join DEFAULT_DIRS DEFAULT_DIRS_WITH_APP
    baseDir args nextConfig
  = existingUnder existsSync join baseDir
      (if NextLint.experimental_appDir nextConfig
       then DEFAULT_DIRS_WITH_APP else DEFAULT_DIRS).
Proof.
  intros Hnone. rewrite pathsToLint_eq, Hnone. reflexivity.
Qed.

(** X16: every path to lint exists and is an entry joined to the base
    directory; the entry was asked for, or nothing was asked for and it is
    a default directory. *)
Theorem pathsToLint_exist (baseDir : string) (args : NextLint.LintArgs)
  (nextConfig : NextLint.NextConfig) (path : string) :
  In path (NextLint.pathsToLint existsSync join DEFAULT_DIRS
             DEFAULT_DIRS_WITH_APP baseDir args nextConfig) ->
  existsSync path = true /\
  exists d,
    path = join baseDir d /\
    (In d (NextLint.filesToLint args nextConfig) \/
     NextLint.filesToLint args nextConfig = [] /\
     In d (NextLint.directoriesToLint DEFAULT_DIRS DEFAULT_DIRS_WITH_APP
             nextConfig)).
Proof.
  rewrite pathsToLint_eq. unfold existingUnder.
  intros Hin. apply filter_In in Hin. destruct Hin as [Hin Hex].
  split; [exact Hex |].
  apply in_map_iff in Hin. destruct Hin as (d & <- & Hd).
  exists d. split; [reflexivity |].
  destruct (NextLint.filesToLint args nextConfig) as [| x l] eqn:Hf.
  - right. split; [reflexivity | exact Hd].
  - left. exact Hd.
Qed.

(** X17: [--dir] overrides the directories of the configuration: with the
    flag given, the configured directories have no effect on the paths. *)
Theorem dir_flag_overrides_config (baseDir : string)
  (args : NextLint.LintArgs) (nextConfig nextConfig' : NextLint.NextConfig)
  (given : list string) :
  NextLint.arg_dir args = Some given ->
  NextLint.experimental_appDir nextConfig
  = NextLint.experimental_appDir nextConfig' ->
  NextLint.pathsToLint existsSync join DEFAULT_DIRS DEFAULT_DIRS_WITH_APP
    baseDir args nextConfig
  = NextLint.pathsToLint existsSync join DEFAULT_DIRS DEFAULT_DIRS_WITH_APP
      baseDir args nextConfig'.
Proof.
  intros Hdir Happ. unfold NextLint.pathsToLint,
    NextLint.filesToLint, NextLint.dirs, NextLint.directoriesToLint.
  now rewrite Hdir, Happ.
Qed.

End PathsToLintFacts.

Lemma pathsToLint_requested_witness :
  NextLint.pathsToLint demoExists demoJoin ["pages"; "components"; "lib"]
    ["app"; "pages"; "components"; "lib"] "/app"
    (NextLint.mkLintArgs (Some ["src"; "missing"]) (Some ["pages"]))
    (NextLint.mkNextConfig (Some ["lib"]) false)
  = ["/app/src"; "/app/pages"].
Proof.
  refine (proj1
    (pathsToLint_requested demoExists demoJoin
       ["pages"; "components"; "lib"] ["app"; "pages"; "components"; "lib"]
       "/app"
       (NextLint.mkLintArgs (Some ["src"; "missing"]) (Some ["pages"]))
       (NextLint.mkNextConfig (Some ["lib"]) false) _)).
  discriminate.
Defined.

Lemma pathsToLint_defaults_witness :
  NextLint.pathsToLint demoExists demoJoin ["pages"; "components"; "lib"]
    ["app"; "pages"; "components"; "lib"] "/app"
    (NextLint.mkLintArgs None None) (NextLint.mkNextConfig None true)
  = ["/app/pages"].
Proof.
  exact (pathsToLint_defaults demoExists demoJoin
           ["pages"; "components"; "lib"]
           ["app"; "pages"; "components"; "lib"] "/app"
           (NextLint.mkLintArgs None None) (NextLint.mkNextConfig None true)
           eq_refl).
Defined.

Lemma pathsToLint_exist_witness : demoExists "/app/src" = true.
Proof.
  refine (proj1
    (pathsToLint_exist demoExists demoJoin
       ["pages"; "components"; "lib"] ["app"; "pages"; "components"; "lib"]
       "/app"
       (NextLint.mkLintArgs (Some ["src"; "missing"]) (Some ["pages"]))
       (NextLint.mkNextConfig (Some ["lib"]) false) "/app/src" _)).
  left. reflexivity.
Defined.

Lemma dir_flag_overrides_config_witness :
  NextLint.pathsToLint demoExists demoJoin ["pages"; "components"; "lib"]
    ["app"; "pages"; "components"; "lib"] "/app"
    (NextLint.mkLintArgs (Some ["src"]) None)
    (NextLint.mkNextConfig (Some ["pages"]) false)
  = NextLint.pathsToLint demoExists demoJoin ["pages"; "components"; "lib"]
      ["app"; "pages"; "components"; "lib"] "/app"
      (NextLint.mkLintArgs (Some ["src"]) None)
      (NextLint.mkNextConfig None false).
Proof.
  exact (dir_flag_overrides_config demoExists demoJoin
           ["pages"; "components"; "lib"]
           ["app"; "pages"; "components"; "lib"] "/app"
           (NextLint.mkLintArgs (Some ["src"]) None)
           (NextLint.mkNextConfig (Some ["pages"]) false)
           (NextLint.mkNextConfig None false) ["src"] eq_refl eq_refl).
Defined.

(* ================================================================== *)
(** ** The handling of the lint results *)

Section LintResultsFacts.

Variable Info : Type.
Variable green : string -> string.
Variable CompileError_message : string -> string.

Ltac settle :=
  unfold NextLint.afterLintCheck, NextLint.onLintResults,
    NextLint.lintOutput, NextLint.truthy_opt, NextLint.truthy_results,
    NextLint.not_a_string, NextLint.isErrorOf, NextLint.eventInfoOf,
    NextLint.text;
  simpl.

Ltac members :=
  repeat match goal with
         | H : In _ _ |- _ => simpl in H
         | H : _ \/ _ |- _ => destruct H as [H | H]
         | H : False |- _ => destruct H
         end;
  try discriminate.

Ltac cases_of lintResults :=
  destruct lintResults as [s | | [s |] [|] [info |]];
  settle;
  try (destruct (truthy s) eqn:Htruthy; simpl).

(** X18: the events are the telemetry, if any, then at most one
    [printAndExit]: the telemetry event is recorded with [buildLint] false
    and flushed before anything is printed. *)
Theorem telemetry_then_one_print (settled : NextLint.Settled Info) :
  exists telemetry prints,
    NextLint.afterLintCheck green CompileError_message settled
    = (telemetry ++ prints)%list /\
    (telemetry = [] \/
     exists info,
       telemetry
       = [NextLint.TelemetryRecord info false; NextLint.TelemetryFlush]) /\
    (prints = [] \/
     exists message code, prints = [NextLint.PrintAndExit message code]).
Proof.
  destruct settled as [message | lintResults].
  - exists [], [NextLint.PrintAndExit message None].
    split; [reflexivity |]. split; [now left | right; eauto].
  - cases_of lintResults;
      first [exists [NextLint.TelemetryRecord info false;
                     NextLint.TelemetryFlush]
            | exists []];
      eexists; (split; [reflexivity |]); split; eauto.
Qed.

(** X19: telemetry is recorded exactly for a result object that has an
    [eventInfo], with that [eventInfo] and [buildLint] false; a string
    result and a rejection record none. *)
Theorem telemetry_iff_eventInfo (settled : NextLint.Settled Info)
  (recorded : Info) (buildLint : bool) :
  In (NextLint.TelemetryRecord recorded buildLint)
     (NextLint.afterLintCheck green CompileError_message settled) <->
  buildLint = false /\
  exists output isError,
    settled
    = NextLint.Resolved (NextLint.LintReport output isError (Some recorded)).
Proof.
  split.
  - destruct settled as [message | lintResults].
    + intros Hin. members.
    + cases_of lintResults; intros Hin; members;
        injection Hin as <- <-; split; eauto.
  - intros (-> & output & isError & ->).
    destruct output as [s |], isError; settle;
      try (destruct (truthy s); simpl); auto.
Qed.

(** X20: nothing at all happens exactly when the result is the empty
    string, [null] or [undefined]: nothing is printed and the process is
    not ended by the handler. *)
Theorem silent_iff_empty (settled : NextLint.Settled Info) :
  NextLint.afterLintCheck green CompileError_message settled = [] <->
  settled = NextLint.Resolved (NextLint.LintText "") \/
  settled = NextLint.Resolved NextLint.LintNothing.
Proof.
  split.
  - destruct settled as [message | lintResults]; [discriminate |].
    cases_of lintResults; try discriminate; auto.
    apply Bool.negb_false_iff, String.eqb_eq in Htruthy. subst s. auto.
  - intros [-> | ->]; reflexivity.
Qed.

(** X21: an error is printed, without an explicit exit code, exactly for a
    rejection (its message) and for a result object with [isError] and a
    non-empty output (the message of the [CompileError] made of that
    output); everything else that is printed carries the exit code 0. *)
Theorem error_print_iff (settled : NextLint.Settled Info) (message : string) :
  (In (NextLint.PrintAndExit message None)
      (NextLint.afterLintCheck green CompileError_message settled) <->
   settled = NextLint.Rejected Info message \/
   exists output info,
     output <> "" /\
     settled
     = NextLint.Resolved (NextLint.LintReport (Some output) true info) /\
     message = CompileError_message output) /\
  (forall text code,
     In (NextLint.PrintAndExit text code)
        (NextLint.afterLintCheck green CompileError_message settled) ->
     code = None \/ code = Some 0).
Proof.
  split; [split |].
  - destruct settled as [rejection | lintResults].
    + intros Hin. members. injection Hin as ->. now left.
    + cases_of lintResults; intros Hin; members;
        injection Hin as <-; right; exists s; eexists;
        (split; [apply truthy_true; exact Htruthy |]); split; reflexivity.
  - intros [-> | (output & info & Hne & -> & ->)]; [simpl; auto |].
    apply truthy_true in Hne.
    destruct info; settle; rewrite Hne; simpl; auto.
  - intros text code.
    destruct settled as [rejection | lintResults].
    + intros Hin. members. injection Hin as _ <-. now left.
    + cases_of lintResults; intros Hin; members;
        injection Hin as _ <-; auto.
Qed.

(** X22: a result object without output, or with an empty one, is
    reported as a success even when [isError] is set: the last thing done
    is to print the line of success with the exit code 0. *)
Theorem error_without_output_is_success (output : option string)
  (isError : bool) (eventInfo : option Info) :
  NextLint.truthy_opt output = false ->
  exists telemetry,
    NextLint.afterLintCheck green CompileError_message
      (NextLint.Resolved (NextLint.LintReport output isError eventInfo))
    = (telemetry ++
       [NextLint.PrintAndExit (green "✔ No ESLint warnings or errors")
          (Some 0)])%list /\
    forall event, In event telemetry ->
                  forall text code, event <> NextLint.PrintAndExit text code.
Proof.
  intros Hout.
  destruct output as [s |], isError, eventInfo as [info |];
    settle; simpl in Hout; try rewrite Hout; simpl;
    first [exists [NextLint.TelemetryRecord info false;
                   NextLint.TelemetryFlush]
          | exists []];
    (split; [reflexivity |]);
    intros event Hin text code; members; subst event; discriminate.
Qed.

End LintResultsFacts.

Lemma error_without_output_is_success_witness :
  NextLint.afterLintCheck (fun s => s) (fun s => s)
    (NextLint.Resolved
       (NextLint.LintReport (Some "") true (@None unit)))
  = [NextLint.PrintAndExit "✔ No ESLint warnings or errors" (Some 0)].
Proof.
  destruct (error_without_output_is_success unit (fun s => s) (fun s => s)
              (Some "") true None eq_refl) as (telemetry & Heq & _).
  pose proof Heq as Hvalue. vm_compute in Hvalue.
  destruct telemetry as [| e t].
  - exact Heq.
  - destruct t; discriminate Hvalue.
Defined.

(* ================================================================== *)
(** ** The scheme prefix and the scan, in the words of the patterns *)

Lemma urlProtoMatch_of_scheme (letters rest : string) :
  letters <> "" -> all_alpha letters = true ->
  urlProtoMatch (letters ++ "://" ++ rest) = Some (letters ++ "://") /\
  urlAsStringNoProto (letters ++ "://" ++ rest) = rest.
Proof.
  intros Hne Ha.
  assert (Hm : urlProtoMatch (letters ++ "://" ++ rest)
               = Some (letters ++ "://")).
  { unfold urlProtoMatch.
    change ("://" ++ rest) with (String ":" ("//" ++ rest)).
    rewrite (span_alpha_letters letters ("//" ++ rest) ":" Ha eq_refl).
    destruct (String.eqb_spec letters "") as [Hl | _]; [contradiction |].
    simpl. destruct rest; reflexivity. }
  split; [exact Hm |].
  unfold urlAsStringNoProto. rewrite Hm.
  rewrite <- (append_assoc letters "://" rest). apply slice_append.
Qed.

Lemma urlProtoMatch_cases (s : string) :
  urlProtoMatch s = None \/
  exists letters rest,
    letters <> "" /\ all_alpha letters = true /\
    s = letters ++ "://" ++ rest /\
    urlProtoMatch s = Some (letters ++ "://").
Proof.
  destruct (urlProtoMatch s) as [m |] eqn:Hm; [right | now left].
  unfold urlProtoMatch in Hm.
  pose proof (span_alpha_append s) as Hs.
  pose proof (span_alpha_all_alpha s) as Ha.
  destruct (span_alpha s) as [letters tail]. simpl in Hs, Ha.
  destruct (negb (letters =? "") && prefix "://" tail) eqn:Hc;
    [| discriminate].
  injection Hm as <-.
  apply andb_true_iff in Hc. destruct Hc as [Hne Hp].
  apply prefix_append in Hp.
  exists letters, (slice (String.length "://") tail).
  split.
  { intros ->. discriminate. }
  split; [exact Ha |]. split; [| reflexivity].
  rewrite Hp. now symmetry.
Qed.

Lemma hasRepeatedSlashes_contains (part : string) :
  hasRepeatedSlashes part = true <->
  exists a b, part = a ++ "//" ++ b \/ part = a ++ "\" ++ b.
Proof.
  split.
  - induction part as [| c tail IH]; simpl; [discriminate |].
    destruct (Ascii.eqb_spec c "\") as [-> | Hback].
    { intros _. exists "", tail. right. reflexivity. }
    destruct (Ascii.eqb_spec c "/") as [-> | Hslash].
    + destruct tail as [| d t]; [discriminate |].
      destruct (Ascii.eqb_spec d "/") as [-> | Hd].
      { intros _. exists "", t. left. reflexivity. }
      intros H. destruct (IH H) as (a & b & [Hab | Hab]); rewrite Hab;
        exists (String "/" a), b; [left | right]; reflexivity.
    + intros H. destruct (IH H) as (a & b & [Hab | Hab]); rewrite Hab;
        exists (String c a), b; [left | right]; reflexivity.
  - intros (a & b & [-> | ->]).
    + apply hasRepeatedSlashes_slashes.
    + apply hasRepeatedSlashes_backslash.
Qed.

(** C6: a scheme prefix is one or more letters followed by [://]; it is
    cut off, and of what remains only the part before the first [?] is
    scanned: the repair is triggered exactly when that part holds two
    consecutive forward slashes or a backslash.  Then there is exactly one
    diagnostic, quoting the string as given, and [urlAsString] becomes the
    scheme prefix followed by [normalizeRepeatedSlashes] of the rest;
    otherwise there is no diagnostic and [urlAsString] is the input.  The
    local-URL test is applied to that [urlAsString]. *)
Theorem repeated_slash_repair (E : Env) (router : NextRouter) (s : string)
  (resolveAs : bool) :
  let proto := match urlProtoMatch s with Some m => m | None => "" end in
  let noProto := urlAsStringNoProto s in
  let u := urlAsStringOf E (UrlString s) in
  s = proto ++ noProto /\
  (forall letters rest,
     letters <> "" -> all_alpha letters = true ->
     s = letters ++ "://" ++ rest ->
     proto = letters ++ "://" /\ noProto = rest) /\
  (proto = "" /\ noProto = s \/
   exists letters rest,
     letters <> "" /\ all_alpha letters = true /\
     s = letters ++ "://" ++ rest /\
     proto = letters ++ "://" /\ noProto = rest) /\
  (forall p q, noProto = p ++ String "?" q -> occurs "?" p = false ->
     (needsRepair s = true <->
      exists a b, p = a ++ "//" ++ b \/ p = a ++ "\" ++ b)) /\
  (occurs "?" noProto = false ->
     (needsRepair s = true <->
      exists a b, noProto = a ++ "//" ++ b \/ noProto = a ++ "\" ++ b)) /\
  (needsRepair s = true ->
   diagnostics (resolveHref E router (UrlString s) resolveAs)
   = ["Invalid href passed to next/router: " ++ s ++
      ", repeated forward-slashes (//) or backslashes \ are not valid in the href"] /\
   u = proto ++ normalizeRepeatedSlashes E noProto) /\
  (needsRepair s = false ->
   diagnostics (resolveHref E router (UrlString s) resolveAs) = [] /\
   u = s) /\
  outcome (resolveHref E router (UrlString s) resolveAs)
  = if negb (isLocalURL E u) then Returned (unresolved u resolveAs)
    else match outcome (constructBase E router u) with
         | Returned base => outcome (resolveAgainst E u base resolveAs)
         | Thrown => Thrown
         end.
Proof.
  cbv zeta.
  split; [symmetry; apply proto_reattached |].
  split.
  { intros letters rest Hne Ha ->.
    destruct (urlProtoMatch_of_scheme letters rest Hne Ha) as [Hm Hrest].
    rewrite Hm. split; [reflexivity | exact Hrest]. }
  split.
  { destruct (urlProtoMatch_cases s)
      as [Hnone | (letters & rest & Hne & Ha & Hs & Hm)].
    - left. unfold urlAsStringNoProto. rewrite Hnone. split; reflexivity.
    - right. exists letters, rest. rewrite Hm.
      repeat split; auto. rewrite Hs.
      apply (urlProtoMatch_of_scheme letters rest Hne Ha). }
  split.
  { intros p q Hsplit Hocc. rewrite <- hasRepeatedSlashes_contains.
    unfold needsRepair, urlParts.
    rewrite Hsplit, split_head_append by exact Hocc.
    rewrite js_or_empty_r. reflexivity. }
  split.
  { intros Hocc. rewrite <- hasRepeatedSlashes_contains.
    unfold needsRepair, urlParts.
    rewrite split_head_whole by exact Hocc.
    rewrite js_or_empty_r. reflexivity. }
  split.
  { intros Hscan. rewrite resolveHref_diagnostics. simpl.
    unfold urlAsStringOf. simpl. rewrite Hscan. split; reflexivity. }
  split.
  { intros Hscan. rewrite resolveHref_diagnostics. simpl.
    unfold urlAsStringOf. simpl. rewrite Hscan. split; reflexivity. }
  apply resolveHref_outcome.
Qed.

Lemma repeated_slash_repair_witness :
  (diagnostics (resolveHref TestPlatform.env postsRouter
                  (UrlString "//evil.com\path") false)
   = ["Invalid href passed to next/router: //evil.com\path, repeated forward-slashes (//) or backslashes \ are not valid in the href"] /\
   urlAsStringOf TestPlatform.env (UrlString "//evil.com\path")
   = "/evil.com/path") /\
  (urlAsStringNoProto "https://example.com/x" = "example.com/x" /\
   needsRepair "https://example.com/x" = false /\
   diagnostics (resolveHref TestPlatform.env postsRouter
                  (UrlString "https://example.com/x") false) = [] /\
   urlAsStringOf TestPlatform.env (UrlString "https://example.com/x")
   = "https://example.com/x") /\
  (needsRepair "https://example.com//x" = true /\
   urlAsStringOf TestPlatform.env (UrlString "https://example.com//x")
   = "https://example.com/x") /\
  needsRepair "/posts?next=//x" = false /\
  needsRepair "web+app://x" = true.
Proof.
  split.
  { destruct (repeated_slash_repair TestPlatform.env postsRouter
                "//evil.com\path" false)
      as (_ & _ & _ & _ & _ & Hrepair & _).
    exact (Hrepair eq_refl). }
  split.
  { destruct (repeated_slash_repair TestPlatform.env postsRouter
                "https://example.com/x" false)
      as (_ & Hscheme & _ & _ & Hscan & _ & Hkept & _).
    assert (Hletters : "https" <> "") by discriminate.
    destruct (Hscheme "https" "example.com/x" Hletters eq_refl eq_refl)
      as [_ Hrest].
    assert (Hclean : needsRepair "https://example.com/x" = false).
    { destruct (needsRepair "https://example.com/x") eqn:Hn; [| reflexivity].
      rewrite Hrest in Hscan.
      destruct (proj1 (Hscan eq_refl) eq_refl) as (a & b & Hab).
      pose proof (proj2 (hasRepeatedSlashes_contains "example.com/x")
                    (ex_intro _ a (ex_intro _ b Hab))) as Habsurd.
      discriminate Habsurd. }
    split; [exact Hrest |]. split; [exact Hclean |].
    exact (Hkept Hclean). }
  split.
  { destruct (repeated_slash_repair TestPlatform.env postsRouter
                "https://example.com//x" false)
      as (_ & Hscheme & _ & _ & Hscan & Hrepair & _).
    assert (Hletters : "https" <> "") by discriminate.
    destruct (Hscheme "https" "example.com//x" Hletters eq_refl eq_refl)
      as [_ Hrest].
    assert (Hdirty : needsRepair "https://example.com//x" = true).
    { rewrite Hrest in Hscan. apply (Hscan eq_refl).
      exists "example.com", "x". left. reflexivity. }
    split; [exact Hdirty |]. exact (proj2 (Hrepair Hdirty)). }
  split.
  { destruct (repeated_slash_repair TestPlatform.env postsRouter
                "/posts?next=//x" false)
      as (_ & _ & _ & Hscan & _).
    destruct (needsRepair "/posts?next=//x") eqn:Hn; [| reflexivity].
    destruct (proj1 (Hscan "/posts" "next=//x" eq_refl eq_refl) eq_refl)
      as (a & b & Hab).
    pose proof (proj2 (hasRepeatedSlashes_contains "/posts")
                  (ex_intro _ a (ex_intro _ b Hab))) as Habsurd.
    discriminate Habsurd. }
  destruct (repeated_slash_repair TestPlatform.env postsRouter
              "web+app://x" false)
    as (_ & _ & _ & _ & Hscan & _).
  apply (Hscan eq_refl). exists "web+app:", "x". left. reflexivity.
Defined.
